(** * SITES Spectral: the synchronisation scripts, embedded and verified

    A shallow embedding of the Python scripts that move station data between
    the Cloudflare D1 database and local documents:

    - [scripts/python/d1_client.py]   the row store gateway,
    - [scripts/python/sync_data.py]   pull / push / diff of one station,
    - [scripts/python/export_station.py]  the JSON export of one station,
    - [scripts/python/bulk_import.py] the bulk loaders,
    - [scripts/export_db_to_yaml.py]  the YAML export of the instrument list.

    JSON scalars are a small inductive type with Python's [==] and truth
    value written out; a row (a Python dict of column to scalar) is a
    [gmap string value]; a dict whose insertion order is observable (the
    data of an UPDATE or INSERT) is an association list.  The scripts run in
    a state-and-exception monad over a world made of the database, the log
    of mutating statements sent through the gateway, the lines printed, and
    the clock read by [datetime.utcnow()]. *)

From Stdlib Require Import ZArith Sorting.Sorted.
From stdpp Require Import gmap strings list fin_maps pretty.

Open Scope string_scope.
Open Scope Z_scope.
Open Scope list_scope.

(** ** JSON scalars and Python's view of them *)

Inductive value :=
  | VNull
  | VBool (b : bool)
  | VNum (n : Z)
  | VStr (s : string).

#[global] Instance value_eq_dec : EqDecision value.
Proof. solve_decision. Defined.

#[global] Instance value_inhabited : Inhabited value := populate VNull.

Abbreviation row := (gmap string value).

Module Py.

(** [True == 1] and [False == 0] in Python; nothing else crosses types. *)
Definition norm (v : value) : value :=
  match v with
  | VBool b => VNum (if b then 1 else 0)
  | _ => v
  end.

Definition eq (a b : value) : bool := bool_decide (norm a = norm b).
Definition ne (a b : value) : bool := negb (eq a b).

(** [bool(v)] *)
Definition truthy (v : value) : bool :=
  match v with
  | VNull => false
  | VBool b => b
  | VNum n => negb (Z.eqb n 0)
  | VStr s => negb (bool_decide (s = ""))
  end.

(** [d.get(k)] and [d.get(k, dflt)] *)
Definition get (d : row) (k : string) : value := default VNull (d !! k).
Definition get_or (d : row) (k : string) (dflt : value) : value :=
  default dflt (d !! k).

(** [a or b] on scalars *)
Definition or (a b : value) : value := if truthy a then a else b.

(** [bool(d)] for a dict: non-empty. *)
Definition truthy_dict (d : row) : bool := negb (bool_decide (d = ∅)).

(** A dict keyed by scalars, built by a comprehension over a list: for
    equal keys the entry written last wins, and [.get(k)] finds it. *)
Definition lookup {A} (d : list (value * A)) (k : value) : option A :=
  snd <$> List.find (λ kv, eq kv.1 k) (rev d).

(** [str(v)] as it appears inside an f-string. *)
Definition str (v : value) : string :=
  match v with
  | VNull => "None"
  | VBool b => if b then "True" else "False"
  | VNum n => pretty n
  | VStr s => s
  end.

End Py.

(** ** The relational store behind the gateway *)

Inductive table := Stations | Platforms | Instruments | InstrumentRois.

#[global] Instance table_eq_dec : EqDecision table.
Proof. solve_decision. Defined.

Definition table_name (t : table) : string :=
  match t with
  | Stations => "stations"
  | Platforms => "platforms"
  | Instruments => "instruments"
  | InstrumentRois => "instrument_rois"
  end.

Record store := Store {
  stations : list row;
  platforms : list row;
  instruments : list row;
  instrument_rois : list row
}.

Definition rows_of (t : table) (s : store) : list row :=
  match t with
  | Stations => stations s
  | Platforms => platforms s
  | Instruments => instruments s
  | InstrumentRois => instrument_rois s
  end.

Definition set_rows (t : table) (rs : list row) (s : store) : store :=
  match t with
  | Stations => Store rs (platforms s) (instruments s) (instrument_rois s)
  | Platforms => Store (stations s) rs (instruments s) (instrument_rois s)
  | Instruments => Store (stations s) (platforms s) rs (instrument_rois s)
  | InstrumentRois => Store (stations s) (platforms s) (instruments s) rs
  end.

Module Sql.

(** [col = ?]: NULL equals nothing, otherwise scalar equality. *)
Definition eq (a b : value) : bool :=
  match a, b with
  | VNull, _ | _, VNull => false
  | _, _ => Py.eq a b
  end.

Definition matches (col : string) (v : value) (r : row) : bool :=
  eq (Py.get r col) v.

(** [SELECT * FROM t WHERE col = ?] in table order. *)
Definition select_where (t : table) (col : string) (v : value) (s : store)
  : list row :=
  List.filter (matches col v) (rows_of t s).

(** The order of [ORDER BY col]: NULL, then numbers, then text. *)
Definition rank (v : value) : Z :=
  match v with
  | VNull => 0
  | VBool _ | VNum _ => 1
  | VStr _ => 2
  end.

Definition leb (a b : value) : bool :=
  match Py.norm a, Py.norm b with
  | VNum x, VNum y => Z.leb x y
  | VStr x, VStr y => String.leb x y
  | x, y => Z.leb (rank x) (rank y)
  end.

Fixpoint insert_sorted (col : string) (r : row) (l : list row) : list row :=
  match l with
  | [] => [r]
  | x :: l' =>
      if leb (Py.get r col) (Py.get x col) then r :: l
      else x :: insert_sorted col r l'
  end.

Definition order_by (col : string) (l : list row) : list row :=
  foldr (insert_sorted col) [] l.

(** [UPDATE t SET k1 = ?, ... WHERE id = ?] on one row. *)
Definition assign (data : list (string * value)) (r : row) : row :=
  foldl (λ acc kv, <[kv.1 := kv.2]> acc) r data.

Definition update_rows (data : list (string * value)) (col : string)
    (v : value) (rs : list row) : list row :=
  map (λ r, if matches col v r then assign data r else r) rs.

(** The identity SQLite gives a new row: one past the largest in use. *)
Definition id_of (r : row) : Z :=
  match Py.get r "id" with VNum n => n | _ => 0 end.

Definition next_id (rs : list row) : Z :=
  1 + foldr (λ r acc, Z.max (id_of r) acc) 0 rs.

End Sql.

(** ** The world the scripts run in *)

Inductive kind := KUpdate | KInsert | KDelete.

#[global] Instance kind_eq_dec : EqDecision kind.
Proof. solve_decision. Defined.

(** A mutating statement as [CloudflareD1Client.execute] receives it. *)
Record stmt := Stmt {
  st_kind : kind;
  st_table : table;
  st_columns : list string;
  st_sql : string;
  st_params : list value
}.

#[global] Instance stmt_eq_dec : EqDecision stmt.
Proof. solve_decision. Defined.

(** The lines the scripts print that carry results: the previews of a dry
    run and the per-row reports of the bulk loader.  Banner and summary
    lines are left out. *)
Inductive line :=
  | WouldUpdateStation (updates : list (string * value))
  | WouldUpdatePlatform (name : value) (updates : list (string * value))
  | WouldUpdateInstrument (name : value)
  | WouldInsert (name : value)
  | Inserted (name : value) (id : Z)
  | RowError (index : nat) (msg : string)
  | Text (s : string).

Record world := World {
  db : store;
  writes : list stmt;
  stdout : list line;
  clock : nat → string;
  ticks : nat
}.

Inductive exn :=
  | ValueError (msg : string)
  | KeyError (key : string)
  | TypeError (msg : string).

(** [str(e)] *)
Definition exn_str (e : exn) : string :=
  match e with
  | ValueError msg => msg
  | KeyError key => "'" +:+ key +:+ "'"
  | TypeError msg => msg
  end.

Inductive outcome (A : Type) :=
  | Ok (a : A)
  | Raise (e : exn).
Arguments Ok {A} a.
Arguments Raise {A} e.

Definition M (A : Type) : Type := world → outcome A * world.

Definition ret {A} (a : A) : M A := λ w, (Ok a, w).

Definition bind {A B} (m : M A) (k : A → M B) : M B :=
  λ w, match m w with
       | (Ok a, w') => k a w'
       | (Raise e, w') => (Raise e, w')
       end.

Definition raise {A} (e : exn) : M A := λ w, (Raise e, w).

Declare Scope py_scope.
Delimit Scope py_scope with py.
Notation "'let*' x ':=' m 'in' k" := (bind m (λ x, k))
  (at level 10, x binder, m at level 200, k at level 200) : py_scope.
Open Scope py_scope.

(** [for x in l: acc = f(acc, x)], stopping at the first exception. *)
Fixpoint foldM {A B} (f : B → A → M B) (b : B) (l : list A) : M B :=
  match l with
  | [] => ret b
  | x :: l' => let* b' := f b x in foldM f b' l'
  end.

(** [[f(x) for x in l]] *)
Fixpoint mapM {A B} (f : A → M B) (l : list A) : M (list B) :=
  match l with
  | [] => ret []
  | x :: l' => let* y := f x in let* ys := mapM f l' in ret (y :: ys)
  end.

(** [try: m except Exception as e: h(e)]; what [m] did before raising stays
    done. *)
Definition try_except {A} (m : M A) (h : exn → M A) : M A :=
  λ w, match m w with
       | (Ok a, w') => (Ok a, w')
       | (Raise e, w') => h e w'
       end.

(** [d[k]]: a missing key raises [KeyError]. *)
Definition getitem (d : row) (k : string) : M value :=
  match d !! k with
  | Some v => ret v
  | None => raise (KeyError k)
  end.

(** [datetime.utcnow().isoformat()] *)
Definition utcnow : M value :=
  λ w, (Ok (VStr (clock w (ticks w))),
        World (db w) (writes w) (stdout w) (clock w) (S (ticks w))).

Definition print (l : line) : M unit :=
  λ w, (Ok tt, World (db w) (writes w) (stdout w ++ [l]) (clock w) (ticks w)).

(** ** [d1_client.py]: the gateway *)

Module D1.

Definition query (t : table) (col : string) (v : value) : M (list row) :=
  λ w, (Ok (Sql.select_where t col v (db w)), w).

Definition query_ordered (t : table) (col : string) (v : value)
    (order : string) : M (list row) :=
  λ w, (Ok (Sql.order_by order (Sql.select_where t col v (db w))), w).

(** [results[0] if results else None] *)
Definition query_one (t : table) (col : string) (v : value)
  : M (option row) :=
  let* rs := query t col v in ret (head rs).

Definition set_clause (data : list (string * value)) : string :=
  String.concat ", " (map (λ kv, kv.1 +:+ " = ?") data).

Definition update_sql (t : table) (data : list (string * value))
    (where_ : string) : string :=
  "UPDATE " +:+ table_name t +:+ " SET " +:+ set_clause data
    +:+ " WHERE " +:+ where_.

Definition execute_write (st : stmt) (db' : store) : M unit :=
  λ w, (Ok tt, World db' (writes w ++ [st]) (stdout w) (clock w) (ticks w)).

(** [update(table, data, "col = ?", [v])]; returns the rows changed. *)
Definition update (t : table) (data : list (string * value))
    (col : string) (v : value) : M Z :=
  λ w,
    let rs := rows_of t (db w) in
    let st := Stmt KUpdate t (map fst data)
                (update_sql t data (col +:+ " = ?"))
                (map snd data ++ [v]) in
    bind (execute_write st (set_rows t (Sql.update_rows data col v rs) (db w)))
         (λ _, ret (Z.of_nat (length (List.filter (Sql.matches col v) rs)))) w.

Definition insert_sql (t : table) (data : list (string * value)) : string :=
  "INSERT INTO " +:+ table_name t +:+ " ("
    +:+ String.concat ", " (map fst data) +:+ ") VALUES ("
    +:+ String.concat ", " (map (λ _, "?") data) +:+ ")".

(** [insert(table, data)]; returns the new row's id. *)
Definition insert (t : table) (data : list (string * value)) : M Z :=
  λ w,
    let rs := rows_of t (db w) in
    let new_id := Sql.next_id rs in
    let r := <["id" := VNum new_id]> (list_to_map data : row) in
    let st := Stmt KInsert t (map fst data) (insert_sql t data)
                (map snd data) in
    bind (execute_write st (set_rows t (rs ++ [r]) (db w)))
         (λ _, ret new_id) w.

End D1.

(** ** Documents: the nested station, as the JSON files hold it

    A station dict carries its scalar columns, the list under ['platforms']
    (absent when the key is) and sub-dicts such as ['_sync_meta']; platforms
    and instruments nest the same way. *)

Record instrument_doc := InstrumentDoc {
  inst_fields : row;
  inst_rois : option (list row)
}.

Record platform_doc := PlatformDoc {
  plat_fields : row;
  plat_instruments : option (list instrument_doc)
}.

Record station_doc := StationDoc {
  st_fields : row;
  st_platforms : option (list platform_doc);
  st_meta : gmap string row
}.

#[global] Instance instrument_doc_eq_dec : EqDecision instrument_doc.
Proof. solve_decision. Defined.
#[global] Instance platform_doc_eq_dec : EqDecision platform_doc.
Proof. solve_decision. Defined.
#[global] Instance station_doc_eq_dec : EqDecision station_doc.
Proof. solve_decision. Defined.

(** ** [sync_data.py] *)

Module Sync.

Definition not_found (acronym : string) : exn :=
  ValueError ("Station " +:+ acronym +:+ " not found").

(** The station lookup every command starts with; [if not station]
    rejects [None] and the empty dict alike. *)
Definition lookup_station (station_acronym : string) : M row :=
  let* station := D1.query_one Stations "acronym" (VStr station_acronym) in
  match station with
  | Some r => if Py.truthy_dict r then ret r
              else raise (not_found station_acronym)
  | None => raise (not_found station_acronym)
  end.

(** *** pull_station *)

Definition pull_instrument (instrument : row) : M instrument_doc :=
  let* iid := getitem instrument "id" in
  let* rois := D1.query_ordered InstrumentRois "instrument_id" iid "roi_name" in
  ret (InstrumentDoc instrument (Some rois)).

Definition pull_platform (platform : row) : M platform_doc :=
  let* pid := getitem platform "id" in
  let* instruments :=
    D1.query_ordered Instruments "platform_id" pid "normalized_name" in
  let* instruments := mapM pull_instrument instruments in
  ret (PlatformDoc platform (Some instruments)).

Definition sync_meta (pulled_at : value) : row :=
  {[ "pulled_at" := pulled_at; "source" := VStr "cloudflare_d1" ]}.

Definition pull_station (station_acronym : string) : M station_doc :=
  let* station := lookup_station station_acronym in
  let* sid := getitem station "id" in
  let* platforms :=
    D1.query_ordered Platforms "station_id" sid "normalized_name" in
  let* platforms := mapM pull_platform platforms in
  let* now := utcnow in
  ret (StationDoc station (Some platforms)
         {[ "_sync_meta" := sync_meta now ]}).

(** *** push_station *)

Definition station_fields : list string :=
  ["display_name"; "description"; "latitude"; "longitude"].
Definition platform_fields : list string :=
  ["display_name"; "description"; "latitude"; "longitude"; "status"].
Definition instrument_fields : list string :=
  ["display_name"; "description"; "status"; "serial_number"].

(** [{f: local[f] for f in fields if f in local and local[f] != existing.get(f)}] *)
Definition collect_updates (fields : list string) (local existing : row)
  : list (string * value) :=
  omap (λ field,
          match local !! field with
          | Some v => if Py.ne v (Py.get existing field)
                      then Some (field, v) else None
          | None => None
          end) fields.

(** [changes[k] += 1] *)
Definition incr (k : string) (changes : gmap string Z) : gmap string Z :=
  <[k := default 0 (changes !! k) + 1]> changes.

(** The [if updates:] block shared by the three levels: stamp the
    update, then preview it or send it as one statement. *)
Definition apply_updates (t : table) (updates : list (string * value))
    (existing : row) (dry_run : bool) (preview : list (string * value) → line)
    (changes : gmap string Z) : M (gmap string Z) :=
  match updates with
  | [] => ret changes
  | _ :: _ =>
      let* now := utcnow in
      let updates := updates ++ [("updated_at", now)] in
      if dry_run then
        let* _ := print (preview updates) in ret changes
      else
        let* id := getitem existing "id" in
        let* _ := D1.update t updates "id" id in
        ret (incr "updated" changes)
  end.

Definition push_instrument (dry_run : bool) (changes : gmap string Z)
    (local_instrument : instrument_doc) : M (gmap string Z) :=
  let* name := getitem (inst_fields local_instrument) "normalized_name" in
  let* existing_inst := D1.query_one Instruments "normalized_name" name in
  match existing_inst with
  | Some existing_inst =>
      if Py.truthy_dict existing_inst then
        apply_updates Instruments
          (collect_updates instrument_fields (inst_fields local_instrument)
             existing_inst)
          existing_inst dry_run (λ _, WouldUpdateInstrument name) changes
      else ret changes
  | None => ret changes
  end.

Definition push_platform (dry_run : bool) (changes : gmap string Z)
    (local_platform : platform_doc) : M (gmap string Z) :=
  let* name := getitem (plat_fields local_platform) "normalized_name" in
  let* existing := D1.query_one Platforms "normalized_name" name in
  match existing with
  | Some existing =>
      if Py.truthy_dict existing then
        let* changes :=
          apply_updates Platforms
            (collect_updates platform_fields (plat_fields local_platform)
               existing)
            existing dry_run (WouldUpdatePlatform name) changes in
        foldM (push_instrument dry_run) changes
          (default [] (plat_instruments local_platform))
      else ret changes
  | None => ret changes
  end.

Definition no_changes : gmap string Z :=
  {[ "updated" := 0; "inserted" := 0; "deleted" := 0 ]}.

Definition push_station (station_acronym : string) (local_data : station_doc)
    (dry_run : bool) : M (gmap string Z) :=
  let* station := lookup_station station_acronym in
  let* changes :=
    apply_updates Stations
      (collect_updates station_fields (st_fields local_data) station)
      station dry_run WouldUpdateStation no_changes in
  foldM (push_platform dry_run) changes
    (default [] (st_platforms local_data)).

(** *** diff_station *)

Record change := Change {
  ch_platform : option value;
  ch_field : string;
  ch_local : value;
  ch_database : value
}.

Record differences := Differences {
  diff_station_ : list change;
  diff_platforms : list change;
  diff_instruments : list change
}.

Definition compare_fields (owner : option value) (fields : list string)
    (local database : row) : list change :=
  omap (λ field,
          let local_val := Py.get local field in
          let db_val := Py.get database field in
          if Py.ne local_val db_val
          then Some (Change owner field local_val db_val) else None) fields.

(** [{p['normalized_name']: p for p in platforms}] *)
Definition index_platform (p : platform_doc) : M (value * platform_doc) :=
  let* name := getitem (plat_fields p) "normalized_name" in ret (name, p).

Definition diff_fields_platform : list string :=
  ["display_name"; "status"; "latitude"; "longitude"].

Definition diff_platform (local_platforms : list (value * platform_doc))
    (db_plat : row) : M (list change) :=
  let* name := getitem db_plat "normalized_name" in
  match Py.lookup local_platforms name with
  | Some local_plat =>
      ret (compare_fields (Some name) diff_fields_platform
             (plat_fields local_plat) db_plat)
  | None => ret []
  end.

Definition diff_station (station_acronym : string) (local_data : station_doc)
  : M differences :=
  let* station := lookup_station station_acronym in
  let station_diff :=
    compare_fields None station_fields (st_fields local_data) station in
  let* local_platforms :=
    mapM index_platform (default [] (st_platforms local_data)) in
  let* sid := getitem station "id" in
  let* db_platforms := D1.query Platforms "station_id" sid in
  let* platform_diffs := mapM (diff_platform local_platforms) db_platforms in
  ret (Differences station_diff (concat platform_diffs) []).

End Sync.

Arguments Sync.collect_updates : simpl never.
Arguments Sync.compare_fields : simpl never.

(** ** [export_station.py] *)

Module ExportStation.

Definition export_instrument (instrument : row) : M instrument_doc :=
  let* iid := getitem instrument "id" in
  let* rois := D1.query_ordered InstrumentRois "instrument_id" iid "roi_name" in
  ret (InstrumentDoc instrument (Some rois)).

Definition export_platform (platform : row) : M platform_doc :=
  let* pid := getitem platform "id" in
  let* instruments :=
    D1.query_ordered Instruments "platform_id" pid "display_name" in
  let* instruments := mapM export_instrument instruments in
  ret (PlatformDoc platform (Some instruments)).

Definition count_instruments (ps : list platform_doc) : nat :=
  sum_list (map (λ p, length (default [] (plat_instruments p))) ps).

Definition count_rois (ps : list platform_doc) : nat :=
  sum_list (map (λ p, sum_list (map (λ i, length (default [] (inst_rois i)))
                                 (default [] (plat_instruments p)))) ps).

Definition export_meta (exported_at : value) (ps : list platform_doc) : row :=
  {[ "exported_at" := exported_at;
     "platform_count" := VNum (Z.of_nat (length ps));
     "instrument_count" := VNum (Z.of_nat (count_instruments ps));
     "roi_count" := VNum (Z.of_nat (count_rois ps)) ]}.

Definition export_station_data (station_acronym : string) : M station_doc :=
  let* station := Sync.lookup_station station_acronym in
  let* _ := getitem station "display_name" in
  let* sid := getitem station "id" in
  let* platforms :=
    D1.query_ordered Platforms "station_id" sid "display_name" in
  let* platforms := mapM export_platform platforms in
  let* now := utcnow in
  ret (StationDoc station (Some platforms)
         {[ "_export_meta" := export_meta now platforms ]}).

End ExportStation.

(** ** [bulk_import.py] *)

Module BulkImport.

(** [SELECT c1, c2 FROM ...]: the row cut down to the columns asked for. *)
Definition project (cols : list string) (r : row) : row :=
  list_to_map (map (λ c, (c, Py.get r c)) cols).

Definition lookup_station_id (station_acronym : string) : M row :=
  let* rs := D1.query Stations "acronym" (VStr station_acronym) in
  match head (map (project ["id"]) rs) with
  | Some r => if Py.truthy_dict r then ret r
              else raise (Sync.not_found station_acronym)
  | None => raise (Sync.not_found station_acronym)
  end.

(** [{p['normalized_name']: p['id'] for p in platforms}] *)
Definition platform_map_of (platforms : list row) : list (value * value) :=
  map (λ p, (Py.get p "normalized_name", Py.get p "id"))
      (map (project ["id"; "normalized_name"]) platforms).

Definition optional_fields : list string :=
  ["description"; "serial_number"; "manufacturer"; "model";
   "latitude"; "longitude"; "installation_date"].

(** [if field in row and row[field]] *)
Definition present (r : row) (field : string) : option (string * value) :=
  match r !! field with
  | Some v => if Py.truthy v then Some (field, v) else None
  | None => None
  end.

Definition platform_name_of (r : row) : value :=
  Py.or (Py.get r "platform_normalized_name") (Py.get r "platform").

Definition platform_id_of (platform_map : list (value * value)) (r : row)
  : value :=
  default VNull (Py.lookup platform_map (platform_name_of r)).

(** The body of the [try] for one row: either the message appended to
    [errors] before [continue], or the dict appended to [imported]. *)
Definition import_instrument_row (platform_map : list (value * value))
    (dry_run : bool) (r : row) : M (string + list (string * value)) :=
  let platform_name := platform_name_of r in
  let platform_id := platform_id_of platform_map r in
  if negb (Py.truthy platform_id) then
    ret (inl ("Platform '" +:+ Py.str platform_name +:+ "' not found"))
  else
    let* normalized_name := getitem r "normalized_name" in
    let* fallback := getitem r "normalized_name" in
    let display_name := Py.get_or r "display_name" fallback in
    let* instrument_type := getitem r "instrument_type" in
    let status := Py.get_or r "status" (VStr "Active") in
    let* created_at := utcnow in
    let* updated_at := utcnow in
    let instrument_data :=
      [("platform_id", platform_id);
       ("normalized_name", normalized_name);
       ("display_name", display_name);
       ("instrument_type", instrument_type);
       ("status", status);
       ("created_at", created_at);
       ("updated_at", updated_at)] ++ omap (present r) optional_fields in
    if dry_run then
      let* _ := print (WouldInsert normalized_name) in
      ret (inr instrument_data)
    else
      let* instrument_id := D1.insert Instruments instrument_data in
      let* _ := print (Inserted normalized_name instrument_id) in
      ret (inr (instrument_data ++ [("id", VNum instrument_id)])).

Definition import_instrument_step (platform_map : list (value * value))
    (dry_run : bool)
    (acc : list (list (string * value)) * list (nat * string))
    (irow : nat * row)
  : M (list (list (string * value)) * list (nat * string)) :=
  try_except
    (let* r := import_instrument_row platform_map dry_run irow.2 in
     match r with
     | inl msg => ret (acc.1, acc.2 ++ [(irow.1, msg)])
     | inr instrument_data => ret (acc.1 ++ [instrument_data], acc.2)
     end)
    (λ e, ret (acc.1, acc.2 ++ [(irow.1, exn_str e)])).

(** [enumerate(rows, 1)] *)
Definition enumerate1 {A} (l : list A) : list (nat * A) :=
  zip (seq 1 (length l)) l.

Definition import_instruments (rows : list row) (station_acronym : string)
    (dry_run : bool) : M (list (list (string * value))) :=
  let* station := lookup_station_id station_acronym in
  let* sid := getitem station "id" in
  let* platforms := D1.query Platforms "station_id" sid in
  let platform_map := platform_map_of platforms in
  let* res := foldM (import_instrument_step platform_map dry_run) ([], [])
                (enumerate1 rows) in
  let* _ := mapM (λ e : nat * string, print (RowError e.1 e.2)) res.2 in
  ret res.1.

(** [float(v)]; numbers are integers in this model, and a string
    converts when it is an optionally signed run of digits. *)
Fixpoint digits (s : string) (acc : Z) : option Z :=
  match s with
  | EmptyString => Some acc
  | String c s' =>
      let n := Z.of_nat (Ascii.nat_of_ascii c) in
      if (48 <=? n) && (n <=? 57) then digits s' (10 * acc + (n - 48))
      else None
  end.

Definition parse_number (s : string) : option Z :=
  match s with
  | EmptyString => None
  | String c s' =>
      if bool_decide (c = Ascii.ascii_of_nat 45) then
        (if bool_decide (s' = "") then None else Z.opp <$> digits s' 0)
      else digits s 0
  end.

Definition float (v : value) : M value :=
  match v with
  | VNum n => ret (VNum n)
  | VBool b => ret (VNum (if b then 1 else 0))
  | VStr s => match parse_number s with
              | Some n => ret (VNum n)
              | None => raise (ValueError
                          ("could not convert string to float: '" +:+ s +:+ "'"))
              end
  | VNull => raise (TypeError
               "float() argument must be a string or a real number, not 'NoneType'")
  end.

Definition import_platform_row (station : row) (dry_run : bool)
    (imported : list (list (string * value))) (r : row)
  : M (list (list (string * value))) :=
  let* sid := getitem station "id" in
  let* normalized_name := getitem r "normalized_name" in
  let* fallback := getitem r "normalized_name" in
  let display_name := Py.get_or r "display_name" fallback in
  let* created_at := utcnow in
  let* updated_at := utcnow in
  let platform_data :=
    [("station_id", sid);
     ("normalized_name", normalized_name);
     ("display_name", display_name);
     ("platform_type", Py.get_or r "platform_type" (VStr "fixed"));
     ("ecosystem_code", Py.get_or r "ecosystem_code" (VStr "FOR"));
     ("status", Py.get_or r "status" (VStr "Active"));
     ("created_at", created_at);
     ("updated_at", updated_at)] in
  let* latitude :=
    match r !! "latitude" with
    | Some v => let* f := float v in ret [("latitude", f)]
    | None => ret []
    end in
  let* longitude :=
    match r !! "longitude" with
    | Some v => let* f := float v in ret [("longitude", f)]
    | None => ret []
    end in
  let description :=
    match r !! "description" with
    | Some v => [("description", v)]
    | None => []
    end in
  let platform_data := platform_data ++ latitude ++ longitude ++ description in
  if dry_run then
    let* _ := print (WouldInsert normalized_name) in
    ret (imported ++ [platform_data])
  else
    let* platform_id := D1.insert Platforms platform_data in
    let* _ := print (Inserted normalized_name platform_id) in
    ret (imported ++ [platform_data ++ [("id", VNum platform_id)]]).

Definition import_platforms (rows : list row) (station_acronym : string)
    (dry_run : bool) : M (list (list (string * value))) :=
  let* station := lookup_station_id station_acronym in
  foldM (import_platform_row station dry_run) [] rows.

End BulkImport.

(** ** [export_db_to_yaml.py]: one instrument of the YAML export *)

Module YamlExport.

(** The dict stored under [p['instruments'][instrument]]: its scalar
    entries and the two optional sub-dicts, [None] when left out. *)
Record instrument_entry := InstrumentEntry {
  ie_fields : row;
  ie_camera : option row;
  ie_sensor : option row
}.

(** [{...} if row['camera_brand'] else None] *)
Definition camera_of (r : row) : M (option row) :=
  let* gate := getitem r "camera_brand" in
  if Py.truthy gate then
    let* brand := getitem r "camera_brand" in
    let* model := getitem r "camera_model" in
    let* serial_number := getitem r "camera_serial_number" in
    ret (Some ({[ "brand" := brand; "model" := model;
                  "serial_number" := serial_number ]} : row))
  else ret None.

(** [{...} if row['sensor_brand'] else None] *)
Definition sensor_of (r : row) : M (option row) :=
  let* gate := getitem r "sensor_brand" in
  if Py.truthy gate then
    let* brand := getitem r "sensor_brand" in
    let* model := getitem r "sensor_model" in
    ret (Some ({[ "brand" := brand; "model" := model ]} : row))
  else ret None.

Definition build_instrument (r : row) : M instrument_entry :=
  let* display_name := getitem r "instr_display" in
  let* instrument_type := getitem r "instrument_type" in
  let* instrument_number := getitem r "instrument_number" in
  let* status := getitem r "status" in
  let* legacy_acronym := getitem r "legacy_acronym" in
  let* instrument_height_m := getitem r "instrument_height_m" in
  let* deployment_date := getitem r "deployment_date" in
  let* camera := camera_of r in
  let* sensor := sensor_of r in
  let* installation_notes := getitem r "installation_notes" in
  ret (InstrumentEntry
         {[ "display_name" := display_name;
            "instrument_type" := instrument_type;
            "instrument_number" := instrument_number;
            "status" := status;
            "legacy_acronym" := legacy_acronym;
            "instrument_height_m" := instrument_height_m;
            "deployment_date" := deployment_date;
            "installation_notes" := installation_notes ]}
         camera sensor).

Definition dquote : string := String (Ascii.ascii_of_nat 34) EmptyString.

(** [if d[k]: print(f'            k: "{d[k]}"')] *)
Definition emit_field (d : row) (k : string) : list string :=
  if Py.truthy (Py.get d k)
  then ["            " +:+ k +:+ ": " +:+ dquote +:+ Py.str (Py.get d k)
          +:+ dquote]
  else [].

(** [if idata[name]: print(f"          name:")] and its fields *)
Definition emit_sub (name : string) (keys : list string) (sub : option row)
  : list string :=
  match sub with
  | Some d =>
      if Py.truthy_dict d
      then ("          " +:+ name +:+ ":") :: flat_map (emit_field d) keys
      else []
  | None => []
  end.

Definition emit_camera (e : instrument_entry) : list string :=
  emit_sub "camera" ["brand"; "model"; "serial_number"] (ie_camera e).

Definition emit_sensor (e : instrument_entry) : list string :=
  emit_sub "sensor" ["brand"; "model"] (ie_sensor e).

End YamlExport.

(** ** A small database to run the scripts on *)

Module Fixture.

Definition station (id : Z) (acronym display : string) : row :=
  {[ "id" := VNum id; "acronym" := VStr acronym;
     "display_name" := VStr display; "description" := VNull;
     "latitude" := VNull; "longitude" := VNull;
     "updated_at" := VStr "2024-01-01" ]}.

Definition platform (id sid : Z) (name display status : string) : row :=
  {[ "id" := VNum id; "station_id" := VNum sid;
     "normalized_name" := VStr name; "display_name" := VStr display;
     "description" := VNull; "latitude" := VNull; "longitude" := VNull;
     "status" := VStr status; "updated_at" := VStr "2024-01-01" ]}.

Definition instrument (id pid : Z) (name display status : string) : row :=
  {[ "id" := VNum id; "platform_id" := VNum pid;
     "normalized_name" := VStr name; "display_name" := VStr display;
     "description" := VNull; "status" := VStr status;
     "serial_number" := VNull; "updated_at" := VStr "2024-01-01" ]}.

Definition roi (id iid : Z) (name : string) : row :=
  {[ "id" := VNum id; "instrument_id" := VNum iid;
     "roi_name" := VStr name ]}.

Definition svb : store :=
  Store [station 1 "SVB" "Svartberget"; station 2 "ANS" "Abisko"]
        [platform 1 1 "SVB_FOR_PL02" "Tower" "Active";
         platform 2 1 "SVB_FOR_PL01" "Mast" "Active";
         platform 3 2 "ANS_FOR_PL01" "Building" "Active"]
        [instrument 1 2 "SVB_FOR_PL01_PHE02" "Cam B" "Active";
         instrument 2 2 "SVB_FOR_PL01_PHE01" "Cam A" "Active";
         instrument 3 3 "ANS_FOR_PL01_PHE01" "Cam" "Active"]
        [roi 1 2 "ROI_01"; roi 2 2 "ROI_00"].

(** The same names under two stations: the rows of ANS come first. *)
Definition shared : store :=
  Store [station 1 "SVB" "Svartberget"; station 2 "ANS" "Abisko"]
        [platform 3 2 "PL01" "Building" "Active";
         platform 4 1 "PL01" "Mast" "Active"]
        [instrument 5 3 "PHE01" "Cam ANS" "Active";
         instrument 6 4 "PHE01" "Cam SVB" "Active"]
        [].

Definition tick_clock (n : nat) : string := "2024-06-01T00:00:" +:+ pretty n.

Definition world_of (s : store) : world := World s [] [] tick_clock 0.

End Fixture.

(** * Properties *)

(** ** Running the monad *)

Lemma bind_ok {A B} (m : M A) (k : A → M B) (w w' : world) (a : A) :
  m w = (Ok a, w') → bind m k w = k a w'.
Proof. intros H. unfold bind. by rewrite H. Qed.

Lemma bind_raise {A B} (m : M A) (k : A → M B) (w w' : world) (e : exn) :
  m w = (Raise e, w') → bind m k w = (Raise e, w').
Proof. intros H. unfold bind. by rewrite H. Qed.

Lemma getitem_some (d : row) (k : string) (v : value) (w : world) :
  d !! k = Some v → getitem d k w = (Ok v, w).
Proof. intros H. unfold getitem. by rewrite H. Qed.

Lemma query_one_eq (t : table) (col : string) (v : value) (w : world) :
  D1.query_one t col v w = (Ok (head (Sql.select_where t col v (db w))), w).
Proof. reflexivity. Qed.

Lemma select_where_find (t : table) (col : string) (v : value) (s : store) :
  head (Sql.select_where t col v s) = List.find (Sql.matches col v) (rows_of t s).
Proof.
  unfold Sql.select_where. induction (rows_of t s) as [|r rs IH]; [done|].
  simpl. by destruct (Sql.matches col v r).
Qed.

(** ** The station lookup *)

Lemma lookup_station_none (acr : string) (w : world) :
  D1.query_one Stations "acronym" (VStr acr) w = (Ok None, w) →
  Sync.lookup_station acr w = (Raise (Sync.not_found acr), w).
Proof. intros H. unfold Sync.lookup_station. by rewrite (bind_ok _ _ _ _ _ H). Qed.

Lemma lookup_station_id_none (acr : string) (w : world) :
  D1.query_one Stations "acronym" (VStr acr) w = (Ok None, w) →
  BulkImport.lookup_station_id acr w = (Raise (Sync.not_found acr), w).
Proof.
  rewrite query_one_eq. intros H.
  unfold BulkImport.lookup_station_id, bind, D1.query.
  destruct (Sql.select_where Stations "acronym" (VStr acr) (db w)); [done|].
  by inversion H.
Qed.

(** C9. When the station lookup by acronym finds no row, every command
    (pull, push, diff, the JSON export, and the bulk load of instruments or
    platforms) raises the "Station ... not found" error at once: no
    statement has been sent, nothing printed, the clock not read, and the
    world is the one it started in. *)
Theorem station_not_found_is_fatal
    (w : world) (acr : string) (doc : station_doc) (rows : list row)
    (dry_run : bool) :
  D1.query_one Stations "acronym" (VStr acr) w = (Ok None, w) →
  Sync.pull_station acr w = (Raise (Sync.not_found acr), w)
  ∧ Sync.push_station acr doc dry_run w = (Raise (Sync.not_found acr), w)
  ∧ Sync.diff_station acr doc w = (Raise (Sync.not_found acr), w)
  ∧ ExportStation.export_station_data acr w = (Raise (Sync.not_found acr), w)
  ∧ BulkImport.import_instruments rows acr dry_run w
    = (Raise (Sync.not_found acr), w)
  ∧ BulkImport.import_platforms rows acr dry_run w
    = (Raise (Sync.not_found acr), w).
Proof.
  intros H.
  pose proof (lookup_station_none _ _ H) as Hs.
  pose proof (lookup_station_id_none _ _ H) as Hi.
  repeat split.
  - unfold Sync.pull_station. by rewrite (bind_raise _ _ _ _ _ Hs).
  - unfold Sync.push_station. by rewrite (bind_raise _ _ _ _ _ Hs).
  - unfold Sync.diff_station. by rewrite (bind_raise _ _ _ _ _ Hs).
  - unfold ExportStation.export_station_data. by rewrite (bind_raise _ _ _ _ _ Hs).
  - unfold BulkImport.import_instruments. by rewrite (bind_raise _ _ _ _ _ Hi).
  - unfold BulkImport.import_platforms. by rewrite (bind_raise _ _ _ _ _ Hi).
Qed.

Lemma station_not_found_is_fatal_witness :
  let w := Fixture.world_of Fixture.svb in
  Sync.push_station "XYZ" (StationDoc ∅ None ∅) false w
  = (Raise (ValueError "Station XYZ not found"), w).
Proof.
  intros w.
  apply (station_not_found_is_fatal w "XYZ" (StationDoc ∅ None ∅) [] false).
  reflexivity.
Defined.

Lemma bind_inv_ok {A B} (m : M A) (k : A → M B) (w w' : world) (b : B) :
  bind m k w = (Ok b, w') →
  ∃ a w1, m w = (Ok a, w1) ∧ k a w1 = (Ok b, w').
Proof.
  unfold bind. destruct (m w) as [[a|e] w1]; [eauto | discriminate].
Qed.

Lemma ret_inv {A} (a b : A) (w w' : world) :
  ret a w = (Ok b, w') → a = b ∧ w = w'.
Proof. unfold ret. by inversion 1. Qed.

Lemma getitem_inv (d : row) (k : string) (v : value) (w w' : world) :
  getitem d k w = (Ok v, w') → d !! k = Some v ∧ w' = w.
Proof.
  unfold getitem. destruct (d !! k); unfold ret, raise; by inversion 1.
Qed.

Ltac inv_run :=
  repeat match goal with
    | H : bind _ _ _ = (Ok _, _) |- _ =>
        apply bind_inv_ok in H; destruct H as (? & ? & ? & H)
    | H : ret _ _ = (Ok _, _) |- _ => apply ret_inv in H; destruct H; subst
    | H : getitem _ _ _ = (Ok _, _) |- _ =>
        apply getitem_inv in H; destruct H; subst
    | H : raise _ _ = (Ok _, _) |- _ => discriminate H
    | H : D1.query _ _ _ _ = (Ok _, _) |- _ =>
        unfold D1.query in H; inversion H; subst; clear H
    | H : D1.query_ordered _ _ _ _ _ = (Ok _, _) |- _ =>
        unfold D1.query_ordered in H; inversion H; subst; clear H
    end.


Lemma lookup_station_inv (acr : string) (w w' : world) (station : row) :
  Sync.lookup_station acr w = (Ok station, w') →
  w' = w
  ∧ List.find (Sql.matches "acronym" (VStr acr)) (stations (db w)) = Some station
  ∧ station ≠ ∅.
Proof.
  unfold Sync.lookup_station. intros H. apply bind_inv_ok in H.
  destruct H as (o & w1 & Hq & H). rewrite query_one_eq in Hq.
  inversion Hq; subst; clear Hq.
  rewrite select_where_find in H. simpl in H.
  destruct (List.find _ _) as [r|]; [|discriminate].
  unfold Py.truthy_dict in H. case_bool_decide; simpl in H; [discriminate|].
  by inv_run.
Qed.

(** ** The differ *)

Lemma compare_fields_spec (owner : option value) (fields : list string)
    (local database : row) (c : Sync.change) :
  c ∈ Sync.compare_fields owner fields local database ↔
  ∃ f, f ∈ fields
       ∧ c = Sync.Change owner f (Py.get local f) (Py.get database f)
       ∧ Py.eq (Py.get local f) (Py.get database f) = false.
Proof.
  unfold Sync.compare_fields. rewrite list_elem_of_omap. unfold Py.ne.
  split.
  - intros (f & Hf & H). exists f.
    destruct (Py.eq _ _); simpl in H; [discriminate|]. by inversion H.
  - intros (f & Hf & -> & H). exists f. by rewrite H.
Qed.






(** ** The YAML export *)

Lemma get_some (d : row) (k : string) (v : value) :
  d !! k = Some v → Py.get d k = v.
Proof. unfold Py.get. by intros ->. Qed.

Lemma camera_of_inv (r : row) (w w' : world) (o : option row) :
  YamlExport.camera_of r w = (Ok o, w') →
  w' = w
  ∧ ((Py.truthy (Py.get r "camera_brand") = true
      ∧ o = Some {[ "brand" := Py.get r "camera_brand";
                    "model" := Py.get r "camera_model";
                    "serial_number" := Py.get r "camera_serial_number" ]})
     ∨ (Py.truthy (Py.get r "camera_brand") = false ∧ o = None)).
Proof.
  unfold YamlExport.camera_of. intros H.
  apply bind_inv_ok in H. destruct H as (gate & w1 & Hg & H).
  apply getitem_inv in Hg. destruct Hg as [Hg ->].
  rewrite (get_some _ _ _ Hg).
  destruct (Py.truthy gate).
  - apply bind_inv_ok in H. destruct H as (brand & w1 & Hb & H).
    apply getitem_inv in Hb. destruct Hb as [Hb ->].
    rewrite Hg in Hb. injection Hb as <-.
    apply bind_inv_ok in H. destruct H as (model & w1 & Hm & H).
    apply getitem_inv in Hm. destruct Hm as [Hm ->].
    apply bind_inv_ok in H. destruct H as (serial & w1 & Hn & H).
    apply getitem_inv in Hn. destruct Hn as [Hn ->].
    apply ret_inv in H. destruct H as [<- <-].
    rewrite (get_some _ _ _ Hm), (get_some _ _ _ Hn). auto.
  - apply ret_inv in H. destruct H as [<- <-]. auto.
Qed.

Lemma sensor_of_inv (r : row) (w w' : world) (o : option row) :
  YamlExport.sensor_of r w = (Ok o, w') →
  w' = w
  ∧ ((Py.truthy (Py.get r "sensor_brand") = true
      ∧ o = Some {[ "brand" := Py.get r "sensor_brand";
                    "model" := Py.get r "sensor_model" ]})
     ∨ (Py.truthy (Py.get r "sensor_brand") = false ∧ o = None)).
Proof.
  unfold YamlExport.sensor_of. intros H.
  apply bind_inv_ok in H. destruct H as (gate & w1 & Hg & H).
  apply getitem_inv in Hg. destruct Hg as [Hg ->].
  rewrite (get_some _ _ _ Hg).
  destruct (Py.truthy gate).
  - apply bind_inv_ok in H. destruct H as (brand & w1 & Hb & H).
    apply getitem_inv in Hb. destruct Hb as [Hb ->].
    rewrite Hg in Hb. injection Hb as <-.
    apply bind_inv_ok in H. destruct H as (model & w1 & Hm & H).
    apply getitem_inv in Hm. destruct Hm as [Hm ->].
    apply ret_inv in H. destruct H as [<- <-].
    rewrite (get_some _ _ _ Hm). auto.
  - apply ret_inv in H. destruct H as [<- <-]. auto.
Qed.

Lemma build_instrument_inv (r : row) (w w' : world)
    (e : YamlExport.instrument_entry) :
  YamlExport.build_instrument r w = (Ok e, w') →
  YamlExport.camera_of r w = (Ok (YamlExport.ie_camera e), w)
  ∧ YamlExport.sensor_of r w = (Ok (YamlExport.ie_sensor e), w).
Proof.
  unfold YamlExport.build_instrument. intros H.
  repeat (apply bind_inv_ok in H;
          let v := fresh "v" in let w1 := fresh "w" in
          let Hv := fresh "Hv" in
          destruct H as (v & w1 & Hv & H);
          try (apply getitem_inv in Hv; destruct Hv as [Hv ->])).
  apply ret_inv in H. destruct H as [<- <-]. simpl.
  destruct (camera_of_inv _ _ _ _ Hv6) as [-> _].
  destruct (sensor_of_inv _ _ _ _ Hv7) as [-> _].
  done.
Qed.

Lemma truthy_not_null (v : value) : Py.truthy v = true → v ≠ VNull.
Proof. by destruct v. Qed.

Lemma emit_sub_nonempty (name : string) (keys : list string) (sub : option row) :
  YamlExport.emit_sub name keys sub ≠ [] ↔ ∃ d, sub = Some d ∧ d ≠ ∅.
Proof.
  unfold YamlExport.emit_sub, Py.truthy_dict. destruct sub as [d|].
  - case_bool_decide; simpl; split; try done.
    + intros (d' & [= <-] & Hne). done.
    + intros _. by exists d.
  - split; [done|]. by intros (d & ? & _).
Qed.

(** C7 (as the code has it). In the YAML export the [camera] sub-object of
    an instrument is present exactly when [camera_brand] is truthy
    (neither null nor empty), and the [sensor] sub-object exactly when
    [sensor_brand] is; its header line is printed exactly when it is
    present.  So a sub-object that is present always has a non-null
    constituent (its brand), and an instrument whose constituent fields are
    all null has none; the other constituent fields do not decide. *)
Theorem sub_object_present_iff_brand
    (r : row) (w w' : world) (e : YamlExport.instrument_entry) :
  YamlExport.build_instrument r w = (Ok e, w') →
  (is_Some (YamlExport.ie_camera e)
     ↔ Py.truthy (Py.get r "camera_brand") = true)
  ∧ (is_Some (YamlExport.ie_sensor e)
     ↔ Py.truthy (Py.get r "sensor_brand") = true)
  ∧ (YamlExport.emit_camera e ≠ [] ↔ is_Some (YamlExport.ie_camera e))
  ∧ (YamlExport.emit_sensor e ≠ [] ↔ is_Some (YamlExport.ie_sensor e))
  ∧ (∀ d, YamlExport.ie_camera e = Some d →
          ∃ v, d !! "brand" = Some v ∧ v ≠ VNull)
  ∧ (∀ d, YamlExport.ie_sensor e = Some d →
          ∃ v, d !! "brand" = Some v ∧ v ≠ VNull).
Proof.
  intros H. apply build_instrument_inv in H. destruct H as [Hc Hs].
  apply camera_of_inv in Hc. destruct Hc as [_ Hc].
  apply sensor_of_inv in Hs. destruct Hs as [_ Hs].
  unfold YamlExport.emit_camera, YamlExport.emit_sensor.
  rewrite !emit_sub_nonempty.
  destruct Hc as [[Hc ->] | [Hc ->]], Hs as [[Hs ->] | [Hs ->]];
    rewrite Hc, Hs;
    repeat split;
    try (intros; by eauto);
    try (by intros []);
    try (by intros (? & ? & ?));
    try (intros _; eexists; split; [done|];
         intros Hm; apply (f_equal (λ m : row, m !! "brand")) in Hm;
         by rewrite lookup_insert_eq in Hm);
    try (intros d [= <-]; eexists; split;
         [apply lookup_insert_eq | by apply truthy_not_null]).
Qed.

Lemma sub_object_present_iff_brand_witness :
  let r : row :=
    {[ "instr_display" := VStr "Cam A"; "instrument_type" := VStr "phenocam";
       "instrument_number" := VStr "PHE01"; "status" := VStr "Active";
       "legacy_acronym" := VNull; "instrument_height_m" := VNull;
       "deployment_date" := VNull; "camera_brand" := VStr "Mobotix";
       "camera_model" := VNull; "camera_serial_number" := VNull;
       "sensor_brand" := VNull; "sensor_model" := VNull;
       "installation_notes" := VNull ]} in
  let w := Fixture.world_of Fixture.svb in
  ∃ e, YamlExport.build_instrument r w = (Ok e, w)
       ∧ is_Some (YamlExport.ie_camera e)
       ∧ ¬ is_Some (YamlExport.ie_sensor e).
Proof.
  intros r w. eexists. split; [vm_compute; reflexivity|].
  match goal with
  | |- is_Some (YamlExport.ie_camera ?e) ∧ _ =>
      destruct (sub_object_present_iff_brand r w w e eq_refl)
        as (Hc & Hs & _)
  end.
  split.
  - apply Hc. reflexivity.
  - intros Hn. apply Hs in Hn. vm_compute in Hn. discriminate.
Defined.

(** C7, the claim as stated fails: with a null brand the camera and the
    sensor sub-objects are left out although one of their constituent
    fields (the model) is set. *)
Lemma sub_object_omitted_despite_model :
  let r : row :=
    {[ "instr_display" := VStr "Cam A"; "instrument_type" := VStr "phenocam";
       "instrument_number" := VStr "PHE01"; "status" := VStr "Active";
       "legacy_acronym" := VNull; "instrument_height_m" := VNull;
       "deployment_date" := VNull; "camera_brand" := VNull;
       "camera_model" := VStr "M16"; "camera_serial_number" := VNull;
       "sensor_brand" := VNull; "sensor_model" := VStr "SKR 1860";
       "installation_notes" := VNull ]} in
  ∃ e w', YamlExport.build_instrument r (Fixture.world_of Fixture.svb)
          = (Ok e, w')
          ∧ r !! "camera_model" = Some (VStr "M16")
          ∧ r !! "sensor_model" = Some (VStr "SKR 1860")
          ∧ YamlExport.ie_camera e = None
          ∧ YamlExport.ie_sensor e = None
          ∧ YamlExport.emit_camera e = []
          ∧ YamlExport.emit_sensor e = [].
Proof.
  intros r. eexists _, _. split; [vm_compute; reflexivity|].
  repeat split; reflexivity.
Qed.

(** ** What a run may change: relations kept by every step *)

Section Preserves.

Variable R : world → world → Prop.
Hypothesis R_refl : ∀ w, R w w.
Hypothesis R_trans : ∀ w1 w2 w3, R w1 w2 → R w2 w3 → R w1 w3.

Definition preserves {A} (m : M A) : Prop := ∀ w, R w (m w).2.

Lemma preserves_ret {A} (a : A) : preserves (ret a).
Proof. intros w. apply R_refl. Qed.

Lemma preserves_raise {A} (e : exn) : preserves (@raise A e).
Proof. intros w. apply R_refl. Qed.

Lemma preserves_bind {A B} (m : M A) (k : A → M B) :
  preserves m → (∀ a, preserves (k a)) → preserves (bind m k).
Proof.
  intros Hm Hk w. unfold bind. specialize (Hm w).
  destruct (m w) as [[a|e] w1]; simpl in *; [|done].
  eapply R_trans; [exact Hm | apply Hk].
Qed.

Lemma preserves_try {A} (m : M A) (h : exn → M A) :
  preserves m → (∀ e, preserves (h e)) → preserves (try_except m h).
Proof.
  intros Hm Hh w. unfold try_except. specialize (Hm w).
  destruct (m w) as [[a|e] w1]; simpl in *; [done|].
  eapply R_trans; [exact Hm | apply Hh].
Qed.

Lemma preserves_foldM {A B} (f : B → A → M B) (l : list A) :
  (∀ b x, preserves (f b x)) → ∀ b, preserves (foldM f b l).
Proof.
  intros Hf. induction l as [|x l IH]; intros b; simpl.
  - apply preserves_ret.
  - apply preserves_bind; [apply Hf | done].
Qed.

Lemma preserves_mapM {A B} (f : A → M B) (l : list A) :
  (∀ x, preserves (f x)) → preserves (mapM f l).
Proof.
  intros Hf. induction l as [|x l IH]; simpl.
  - apply preserves_ret.
  - apply preserves_bind; [apply Hf|]. intros y.
    apply preserves_bind; [done|]. intros ys. apply preserves_ret.
Qed.

Lemma preserves_getitem (d : row) (k : string) : preserves (getitem d k).
Proof.
  unfold getitem. destruct (d !! k); [apply preserves_ret | apply preserves_raise].
Qed.


Lemma preserves_query_ordered (t : table) (col : string) (v : value)
    (order : string) :
  preserves (D1.query_ordered t col v order).
Proof. intros w. apply R_refl. Qed.

Lemma preserves_query_one (t : table) (col : string) (v : value) :
  preserves (D1.query_one t col v).
Proof. intros w. apply R_refl. Qed.

Lemma preserves_lookup_station (acr : string) :
  preserves (Sync.lookup_station acr).
Proof.
  unfold Sync.lookup_station. apply preserves_bind; [apply preserves_query_one|].
  intros [r|]; [|apply preserves_raise].
  destruct (Py.truthy_dict r); [apply preserves_ret | apply preserves_raise].
Qed.

(** The three levels of [push_station] keep whatever the clock, the
    preview and the update statements they can send keep. *)
Hypothesis R_utcnow : preserves utcnow.

Definition level_ok (t : table) (fields : list string) : Prop :=
  ∀ local e now v,
    preserves (D1.update t (Sync.collect_updates fields local e
                              ++ [("updated_at", now)]) "id" v).

Lemma preserves_apply_updates (t : table) (fields : list string)
    (local existing : row) (dry_run : bool)
    (preview : list (string * value) → line) (changes : gmap string Z) :
  (dry_run = true → ∀ l, preserves (print l)) →
  (dry_run = false → level_ok t fields) →
  preserves (Sync.apply_updates t (Sync.collect_updates fields local existing)
               existing dry_run preview changes).
Proof.
  intros Hp Hu. unfold Sync.apply_updates.
  destruct (Sync.collect_updates fields local existing) as [|u us] eqn:E;
    [apply preserves_ret|].
  apply preserves_bind; [apply R_utcnow|]. intros now.
  destruct dry_run.
  - apply preserves_bind; [by apply Hp|]. intros _. apply preserves_ret.
  - apply preserves_bind; [apply preserves_getitem|]. intros id.
    apply preserves_bind; [|intros _; apply preserves_ret].
    rewrite <- E. by apply Hu.
Qed.

Lemma preserves_push_instrument (dry_run : bool) (changes : gmap string Z)
    (li : instrument_doc) :
  (dry_run = true → ∀ l, preserves (print l)) →
  (dry_run = false → level_ok Instruments Sync.instrument_fields) →
  preserves (Sync.push_instrument dry_run changes li).
Proof.
  intros Hp Hu. unfold Sync.push_instrument.
  apply preserves_bind; [apply preserves_getitem|]. intros name.
  apply preserves_bind; [apply preserves_query_one|].
  intros [e|]; [|apply preserves_ret].
  destruct (Py.truthy_dict e); [|apply preserves_ret].
  by apply preserves_apply_updates.
Qed.

Lemma preserves_push_platform (dry_run : bool) (changes : gmap string Z)
    (lp : platform_doc) :
  (dry_run = true → ∀ l, preserves (print l)) →
  (dry_run = false → level_ok Platforms Sync.platform_fields) →
  (dry_run = false → level_ok Instruments Sync.instrument_fields) →
  preserves (Sync.push_platform dry_run changes lp).
Proof.
  intros Hp Hu Hi. unfold Sync.push_platform.
  apply preserves_bind; [apply preserves_getitem|]. intros name.
  apply preserves_bind; [apply preserves_query_one|].
  intros [e|]; [|apply preserves_ret].
  destruct (Py.truthy_dict e); [|apply preserves_ret].
  apply preserves_bind; [by apply preserves_apply_updates|]. intros ch.
  apply preserves_foldM. intros b x. by apply preserves_push_instrument.
Qed.

Lemma preserves_push_station (acr : string) (local : station_doc)
    (dry_run : bool) :
  (dry_run = true → ∀ l, preserves (print l)) →
  (dry_run = false → level_ok Stations Sync.station_fields) →
  (dry_run = false → level_ok Platforms Sync.platform_fields) →
  (dry_run = false → level_ok Instruments Sync.instrument_fields) →
  preserves (Sync.push_station acr local dry_run).
Proof.
  intros Hp Hs Hu Hi. unfold Sync.push_station.
  apply preserves_bind; [apply preserves_lookup_station|]. intros station.
  apply preserves_bind; [by apply preserves_apply_updates|]. intros ch.
  apply preserves_foldM. intros b x. by apply preserves_push_platform.
Qed.

End Preserves.


(** ** Rows under an UPDATE *)

Lemma assign_lookup_other (data : list (string * value)) (r : row) (c : string) :
  c ∉ map fst data → Sql.assign data r !! c = r !! c.
Proof.
  unfold Sql.assign. revert r. induction data as [|[k v] data IH]; intros r Hc.
  - done.
  - simpl. rewrite IH.
    + apply lookup_insert_ne. intros ->. apply Hc. simpl. left.
    + intros Hin. apply Hc. simpl. by right.
Qed.


Lemma collect_updates_spec (fields : list string) (local existing : row)
    (f : string) (v : value) :
  (f, v) ∈ Sync.collect_updates fields local existing ↔
  f ∈ fields ∧ local !! f = Some v ∧ Py.eq v (Py.get existing f) = false.
Proof.
  unfold Sync.collect_updates. rewrite list_elem_of_omap. unfold Py.ne. split.
  - intros (g & Hg & H). destruct (local !! g) as [u|] eqn:E; [|discriminate].
    destruct (Py.eq u (Py.get existing g)) eqn:E'; simpl in H; [discriminate|].
    by inversion H; subst.
  - intros (Hf & Hl & Hne). exists f. by rewrite Hl, Hne.
Qed.

Lemma collect_updates_keys (fields : list string) (local existing : row) :
  map fst (Sync.collect_updates fields local existing) ⊆ fields.
Proof.
  intros f Hf. apply list_elem_of_fmap in Hf. destruct Hf as ([g v] & -> & H).
  by apply collect_updates_spec in H as (? & _).
Qed.


Lemma rows_of_set_rows (t t' : table) (rs : list row) (s : store) :
  rows_of t' (set_rows t rs s) = if decide (t = t') then rs else rows_of t' s.
Proof. by destruct t, t'. Qed.

(** ** What a push may touch *)

(** The columns a push can write: the three allow lists and the stamp. *)
Definition writable : list string :=
  ["display_name"; "description"; "latitude"; "longitude"; "status";
   "serial_number"; "updated_at"].

Definition same_outside (cols : list string) (r r' : row) : Prop :=
  ∀ c, c ∉ cols → r' !! c = r !! c.

(** Nothing sent, nothing stored. *)
Definition frozen (w w' : world) : Prop :=
  db w' = db w ∧ writes w' = writes w.

(** Only UPDATE statements on writable columns were sent, and every table
    has the rows it had, equal outside the writable columns. *)
Definition only_updates (w w' : world) : Prop :=
  (∃ extra, writes w' = writes w ++ extra
            ∧ Forall (λ s, st_kind s = KUpdate ∧ st_columns s ⊆ writable) extra)
  ∧ ∀ t, Forall2 (same_outside writable) (rows_of t (db w)) (rows_of t (db w')).

Lemma frozen_refl (w : world) : frozen w w.
Proof. by split. Qed.

Lemma frozen_trans (w1 w2 w3 : world) : frozen w1 w2 → frozen w2 w3 → frozen w1 w3.
Proof. intros [? ?] [? ?]. split; congruence. Qed.

Lemma same_outside_refl (cols : list string) (r : row) : same_outside cols r r.
Proof. by intros c _. Qed.

Lemma same_outside_all (cols : list string) (rs : list row) :
  Forall2 (same_outside cols) rs rs.
Proof. induction rs; constructor; [apply same_outside_refl | done]. Qed.

Lemma only_updates_same (w w' : world) :
  db w' = db w → writes w' = writes w → only_updates w w'.
Proof.
  intros Hdb Hw. split.
  - exists []. by rewrite app_nil_r.
  - intros t. rewrite Hdb. apply same_outside_all.
Qed.

Lemma only_updates_refl (w : world) : only_updates w w.
Proof. by apply only_updates_same. Qed.

Lemma only_updates_trans (w1 w2 w3 : world) :
  only_updates w1 w2 → only_updates w2 w3 → only_updates w1 w3.
Proof.
  intros [(e1 & H1 & F1) R1] [(e2 & H2 & F2) R2]. split.
  - exists (e1 ++ e2). split; [by rewrite H2, H1, app_assoc|].
    by apply Forall_app.
  - intros t. specialize (R1 t). specialize (R2 t).
    revert R2. generalize (rows_of t (db w3)).
    induction R1 as [|r r' l l' Hr _ IH]; intros l3 R2.
    + by inversion R2.
    + inversion R2 as [|? r3 ? l3' Hr' R2']; subst. constructor; [|by apply IH].
      intros c Hc. by rewrite Hr', Hr.
Qed.

Lemma frozen_utcnow : preserves frozen utcnow.
Proof. by intros w. Qed.

Lemma frozen_print (l : line) : preserves frozen (print l).
Proof. by intros w. Qed.

Lemma only_updates_utcnow : preserves only_updates utcnow.
Proof. intros w. by apply only_updates_same. Qed.

Lemma fields_writable (t : table) (fields : list string) :
  fields ∈ [Sync.station_fields; Sync.platform_fields; Sync.instrument_fields] →
  fields ++ ["updated_at"] ⊆ writable.
Proof.
  intros H. repeat (apply elem_of_cons in H; destruct H as [-> | H]);
    [| | | by apply not_elem_of_nil in H];
    intros c Hc; unfold writable;
    repeat (apply elem_of_cons in Hc; destruct Hc as [-> | Hc]);
    try (by apply not_elem_of_nil in Hc); set_solver.
Qed.

Lemma update_rows_same_outside (data : list (string * value)) (col : string)
    (v : value) (cols : list string) (rs : list row) :
  map fst data ⊆ cols →
  Forall2 (same_outside cols) rs (Sql.update_rows data col v rs).
Proof.
  intros Hsub. unfold Sql.update_rows. induction rs as [|r rs IH]; simpl.
  - constructor.
  - constructor; [|done]. destruct (Sql.matches col v r).
    + intros c Hc. apply assign_lookup_other. intros Hin. apply Hc.
      by apply Hsub.
    + apply same_outside_refl.
Qed.

Lemma only_updates_update (t : table) (fields : list string) :
  fields ∈ [Sync.station_fields; Sync.platform_fields; Sync.instrument_fields] →
  level_ok only_updates t fields.
Proof.
  intros Hf local e now v w. unfold D1.update, bind, D1.execute_write, ret.
  simpl.
  assert (map fst (Sync.collect_updates fields local e ++ [("updated_at", now)])
          ⊆ writable) as Hsub.
  { rewrite map_app. simpl. intros c Hc. apply (fields_writable t fields Hf).
    apply elem_of_app in Hc. apply elem_of_app. destruct Hc as [Hc|Hc]; [|by right].
    left. by apply (collect_updates_keys fields local e). }
  split; simpl.
  - eexists [_]. split; [done|]. constructor; [|constructor]. by split.
  - intros t'. rewrite rows_of_set_rows. destruct (decide (t = t')) as [<-|_].
    + by apply update_rows_same_outside.
    + apply same_outside_all.
Qed.

(** A dry run keeps the store and sends nothing. *)
Lemma push_dry_run_frozen (acr : string) (local : station_doc) (w : world) :
  frozen w (Sync.push_station acr local true w).2.
Proof.
  apply preserves_push_station.
  - apply frozen_refl.
  - apply frozen_trans.
  - apply frozen_utcnow.
  - intros _. apply frozen_print.
  - discriminate.
  - discriminate.
  - discriminate.
Qed.

(** A real push sends UPDATE statements only. *)
Lemma push_only_updates (acr : string) (local : station_doc) (w : world) :
  only_updates w (Sync.push_station acr local false w).2.
Proof.
  apply preserves_push_station.
  - apply only_updates_refl.
  - apply only_updates_trans.
  - apply only_updates_utcnow.
  - discriminate.
  - intros _. apply only_updates_update. set_solver.
  - intros _. apply only_updates_update. set_solver.
  - intros _. apply only_updates_update. set_solver.
Qed.

(** Columns outside the writable ones select the same rows before and
    after a push. *)
Lemma same_outside_matches (col : string) (v : value) (r r' : row) :
  col ∉ writable → same_outside writable r r' →
  Sql.matches col v r' = Sql.matches col v r.
Proof.
  intros Hc H. unfold Sql.matches, Py.get. by rewrite (H col Hc).
Qed.

Lemma select_where_none_kept (t : table) (col : string) (v : value)
    (w w' : world) :
  col ∉ writable → only_updates w w' →
  Sql.select_where t col v (db w) = [] →
  Sql.select_where t col v (db w') = [].
Proof.
  intros Hc [_ H]. specialize (H t). unfold Sql.select_where.
  induction H as [|r r' l l' Hr _ IH]; [done|]. simpl.
  rewrite (same_outside_matches col v r r' Hc Hr).
  destruct (Sql.matches col v r); [done|]. exact IH.
Qed.

(** ** The counters a push returns *)

Definition counters_only (changes : gmap string Z) : Prop :=
  dom changes = {[ "updated"; "inserted"; "deleted" ]}
  ∧ changes !! "inserted" = Some 0
  ∧ changes !! "deleted" = Some 0.

Lemma counters_only_init : counters_only Sync.no_changes.
Proof.
  unfold counters_only, Sync.no_changes. split; [|by split].
  rewrite !dom_insert_L, dom_singleton_L. set_solver.
Qed.

Lemma counters_only_incr (changes : gmap string Z) :
  counters_only changes → counters_only (Sync.incr "updated" changes).
Proof.
  intros (Hd & Hi & Hx). unfold counters_only, Sync.incr.
  rewrite dom_insert_L, Hd, !lookup_insert_ne by done.
  split; [set_solver | by split].
Qed.

Lemma foldM_ok_inv {A B} (P : B → Prop) (f : B → A → M B) (l : list A) :
  (∀ b x w b' w', P b → f b x w = (Ok b', w') → P b') →
  ∀ b w b' w', P b → foldM f b l w = (Ok b', w') → P b'.
Proof.
  intros Hf. induction l as [|x l IH]; intros b w b' w' Hb H; simpl in H.
  - apply ret_inv in H. by destruct H as [<- _].
  - apply bind_inv_ok in H. destruct H as (b1 & w1 & H1 & H). eauto.
Qed.

Lemma apply_updates_counters (t : table) (updates : list (string * value))
    (existing : row) (dry_run : bool) (preview : list (string * value) → line)
    (changes changes' : gmap string Z) (w w' : world) :
  counters_only changes →
  Sync.apply_updates t updates existing dry_run preview changes w
  = (Ok changes', w') →
  counters_only changes'.
Proof.
  intros Hc H. unfold Sync.apply_updates in H. destruct updates as [|u us].
  - apply ret_inv in H. by destruct H as [<- _].
  - apply bind_inv_ok in H. destruct H as (now & w1 & _ & H).
    destruct dry_run.
    + apply bind_inv_ok in H. destruct H as (? & w2 & _ & H).
      apply ret_inv in H. by destruct H as [<- _].
    + apply bind_inv_ok in H. destruct H as (id & w2 & _ & H).
      apply bind_inv_ok in H. destruct H as (n & w3 & _ & H).
      apply ret_inv in H. destruct H as [<- _]. by apply counters_only_incr.
Qed.

Lemma push_instrument_counters (dry_run : bool) (changes changes' : gmap string Z)
    (li : instrument_doc) (w w' : world) :
  counters_only changes →
  Sync.push_instrument dry_run changes li w = (Ok changes', w') →
  counters_only changes'.
Proof.
  intros Hc H. unfold Sync.push_instrument in H.
  apply bind_inv_ok in H. destruct H as (name & w1 & _ & H).
  apply bind_inv_ok in H. destruct H as (e & w2 & _ & H).
  destruct e as [e|]; [|apply ret_inv in H; by destruct H as [<- _]].
  destruct (Py.truthy_dict e); [|apply ret_inv in H; by destruct H as [<- _]].
  by eapply apply_updates_counters.
Qed.

Lemma push_platform_counters (dry_run : bool) (changes changes' : gmap string Z)
    (lp : platform_doc) (w w' : world) :
  counters_only changes →
  Sync.push_platform dry_run changes lp w = (Ok changes', w') →
  counters_only changes'.
Proof.
  intros Hc H. unfold Sync.push_platform in H.
  apply bind_inv_ok in H. destruct H as (name & w1 & _ & H).
  apply bind_inv_ok in H. destruct H as (e & w2 & _ & H).
  destruct e as [e|]; [|apply ret_inv in H; by destruct H as [<- _]].
  destruct (Py.truthy_dict e); [|apply ret_inv in H; by destruct H as [<- _]].
  apply bind_inv_ok in H. destruct H as (ch & w3 & H1 & H).
  apply (foldM_ok_inv counters_only) in H; [done| |by eapply apply_updates_counters].
  intros. by eapply push_instrument_counters.
Qed.

Lemma push_station_counters (acr : string) (local : station_doc)
    (dry_run : bool) (changes : gmap string Z) (w w' : world) :
  Sync.push_station acr local dry_run w = (Ok changes, w') →
  counters_only changes.
Proof.
  intros H. unfold Sync.push_station in H.
  apply bind_inv_ok in H. destruct H as (station & w1 & _ & H).
  apply bind_inv_ok in H. destruct H as (ch & w2 & H1 & H).
  apply (foldM_ok_inv counters_only) in H; [done| |].
  - intros. by eapply push_platform_counters.
  - eapply apply_updates_counters; [apply counters_only_init | done].
Qed.

(** The step for an entity without a match changes nothing at all. *)
Lemma push_platform_unmatched (dry_run : bool) (changes : gmap string Z)
    (lp : platform_doc) (name : value) (w : world) :
  plat_fields lp !! "normalized_name" = Some name →
  Sql.select_where Platforms "normalized_name" name (db w) = [] →
  Sync.push_platform dry_run changes lp w = (Ok changes, w).
Proof.
  intros Hn Hs. unfold Sync.push_platform.
  rewrite (bind_ok _ _ _ _ _ (getitem_some _ _ _ w Hn)).
  rewrite (bind_ok _ _ _ _ _ (query_one_eq _ _ _ w)). by rewrite Hs.
Qed.

Lemma push_instrument_unmatched (dry_run : bool) (changes : gmap string Z)
    (li : instrument_doc) (name : value) (w : world) :
  inst_fields li !! "normalized_name" = Some name →
  Sql.select_where Instruments "normalized_name" name (db w) = [] →
  Sync.push_instrument dry_run changes li w = (Ok changes, w).
Proof.
  intros Hn Hs. unfold Sync.push_instrument.
  rewrite (bind_ok _ _ _ _ _ (getitem_some _ _ _ w Hn)).
  rewrite (bind_ok _ _ _ _ _ (query_one_eq _ _ _ w)). by rewrite Hs.
Qed.

Lemma normalized_name_not_writable : "normalized_name" ∉ writable.
Proof.
  unfold writable. rewrite !not_elem_of_cons.
  repeat split; try done. apply not_elem_of_nil.
Qed.

(** C1 (as the code has it). Take a natural key [name] that no platform
    (no instrument) row of the live store carries.  A non-dry-run push of
    any candidate sends UPDATE statements only, leaves every table with
    the rows it had (equal outside the writable columns), and afterwards
    still no row carries [name]: the entity is not created.  Whenever the
    loop reaches a candidate entity with that key, its step returns the
    counters and the world untouched.  The push returns the three counters
    [updated], [inserted] = 0 and [deleted] = 0 and nothing else: the
    skipped entity is not listed anywhere. *)
Theorem push_skips_unmatched_silently
    (w : world) (acr : string) (cand : station_doc) (t : table) (name : value) :
  t = Platforms ∨ t = Instruments →
  Sql.select_where t "normalized_name" name (db w) = [] →
  let run := Sync.push_station acr cand false w in
  only_updates w run.2
  ∧ Sql.select_where t "normalized_name" name (db run.2) = []
  ∧ (∀ w1 changes dry_run lp,
       only_updates w w1 → t = Platforms →
       plat_fields lp !! "normalized_name" = Some name →
       Sync.push_platform dry_run changes lp w1 = (Ok changes, w1))
  ∧ (∀ w1 changes dry_run li,
       only_updates w w1 → t = Instruments →
       inst_fields li !! "normalized_name" = Some name →
       Sync.push_instrument dry_run changes li w1 = (Ok changes, w1))
  ∧ (∀ changes, run.1 = Ok changes →
       counters_only changes ∧ changes !! "skippedStructural" = None).
Proof.
  intros Ht Hnone run.
  pose proof (push_only_updates acr cand w) as Hrun. fold run in Hrun.
  split; [done|]. split.
  { by apply (select_where_none_kept t _ _ w);
      [apply normalized_name_not_writable | |]. }
  split.
  { intros w1 changes dry_run lp Hw1 -> Hn.
    apply (push_platform_unmatched _ _ _ name); [done|].
    by apply (select_where_none_kept Platforms _ _ w);
      [apply normalized_name_not_writable | |]. }
  split.
  { intros w1 changes dry_run li Hw1 -> Hn.
    apply (push_instrument_unmatched _ _ _ name); [done|].
    by apply (select_where_none_kept Instruments _ _ w);
      [apply normalized_name_not_writable | |]. }
  intros changes Hok. destruct run as [o w'] eqn:E. simpl in Hok. subst o.
  pose proof (push_station_counters _ _ _ _ _ _ E) as Hc.
  split; [done|]. destruct Hc as (Hd & _ & _).
  apply not_elem_of_dom. rewrite Hd, !elem_of_union, !elem_of_singleton.
  intros [[?|?]|?]; discriminate.
Qed.

Lemma push_skips_unmatched_silently_witness :
  let w := Fixture.world_of Fixture.svb in
  let cand :=
    StationDoc {[ "display_name" := VStr "Svartberget" ]}
      (Some [PlatformDoc {[ "normalized_name" := VStr "SVB_FOR_PL01";
                            "status" := VStr "Inactive" ]} None;
             PlatformDoc {[ "normalized_name" := VStr "SVB_FOR_PL09";
                            "status" := VStr "Active" ]} None]) ∅ in
  Sql.select_where Platforms "normalized_name" (VStr "SVB_FOR_PL09") (db w) = []
  ∧ Sql.select_where Platforms "normalized_name" (VStr "SVB_FOR_PL09")
      (db (Sync.push_station "SVB" cand false w).2) = [].
Proof.
  intros w cand. split; [reflexivity|].
  apply (push_skips_unmatched_silently w "SVB" cand Platforms
           (VStr "SVB_FOR_PL09")); [by left | reflexivity].
Defined.

(** C1, the claim as stated fails: the candidate's second platform has no
    match, and the push returns the same counters, prints the same (nothing)
    and ends in the same world as the push of the candidate without it; the
    result has no [skippedStructural] entry. *)
Lemma push_reports_no_skipped_entity :
  let w := Fixture.world_of Fixture.svb in
  let matched := PlatformDoc {[ "normalized_name" := VStr "SVB_FOR_PL01";
                                "status" := VStr "Inactive" ]} None in
  let unmatched := PlatformDoc {[ "normalized_name" := VStr "SVB_FOR_PL09";
                                  "status" := VStr "Active" ]} None in
  let fields : row := {[ "display_name" := VStr "Svartberget" ]} in
  Sql.select_where Platforms "normalized_name" (VStr "SVB_FOR_PL09") (db w) = []
  ∧ Sync.push_station "SVB" (StationDoc fields (Some [matched; unmatched]) ∅)
      false w
    = Sync.push_station "SVB" (StationDoc fields (Some [matched]) ∅) false w
  ∧ ∃ changes w',
      Sync.push_station "SVB" (StationDoc fields (Some [matched; unmatched]) ∅)
        false w = (Ok changes, w')
      ∧ changes !! "skippedStructural" = None
      ∧ map_to_list changes
        = [("updated", 1); ("inserted", 0); ("deleted", 0)]
      ∧ stdout w' = [].
Proof.
  intros w matched unmatched fields.
  split; [reflexivity|]. split; [vm_compute; reflexivity|].
  eexists _, _. split; [vm_compute; reflexivity|].
  repeat split; vm_compute; reflexivity.
Qed.

(** ** One statement per entity *)

(** The statements a run adds to the log all satisfy [P]. *)
Definition sends (P : stmt → Prop) (w w' : world) : Prop :=
  ∃ extra, writes w' = writes w ++ extra ∧ Forall P extra.

Lemma sends_refl (P : stmt → Prop) (w : world) : sends P w w.
Proof. exists []. by rewrite app_nil_r. Qed.

Lemma sends_trans (P : stmt → Prop) (w1 w2 w3 : world) :
  sends P w1 w2 → sends P w2 w3 → sends P w1 w3.
Proof.
  intros (e1 & H1 & F1) (e2 & H2 & F2). exists (e1 ++ e2).
  split; [by rewrite H2, H1, app_assoc | by apply Forall_app].
Qed.

Lemma sends_utcnow (P : stmt → Prop) : preserves (sends P) utcnow.
Proof. intros w. exists []. simpl. by rewrite app_nil_r. Qed.

Lemma sends_update (P : stmt → Prop) (t : table) (fields : list string) :
  (∀ s, st_kind s = KUpdate → st_table s = t → P s) →
  level_ok (sends P) t fields.
Proof.
  intros HP local e now v w. unfold D1.update, bind, D1.execute_write, ret.
  simpl. eexists [_]. split; [done|]. constructor; [|constructor]. by apply HP.
Qed.


Definition update_stmt (t : table) (data : list (string * value)) (id : value)
  : stmt :=
  Stmt KUpdate t (map fst data) (D1.update_sql t data "id = ?")
       (map snd data ++ [id]).


Lemma apply_updates_real_eq (t : table) (updates : list (string * value))
    (existing : row) (id : value) (preview : list (string * value) → line)
    (changes : gmap string Z) (w : world) :
  existing !! "id" = Some id →
  updates ≠ [] →
  let data := updates ++ [("updated_at", VStr (clock w (ticks w)))] in
  Sync.apply_updates t updates existing false preview changes w
  = (Ok (Sync.incr "updated" changes),
     World (set_rows t (Sql.update_rows data "id" id (rows_of t (db w))) (db w))
           (writes w ++ [update_stmt t data id])
           (stdout w) (clock w) (S (ticks w))).
Proof.
  intros Hid Hne. destruct updates as [|u us]; [done|].
  unfold Sync.apply_updates, bind, utcnow. simpl.
  unfold getitem. by rewrite Hid.
Qed.


Lemma truthy_dict_true (d : row) : d ≠ ∅ → Py.truthy_dict d = true.
Proof. intros H. unfold Py.truthy_dict. by rewrite bool_decide_eq_false_2. Qed.



Lemma push_platform_sends (P : stmt → Prop) (changes : gmap string Z)
    (lp : platform_doc) :
  (∀ s, st_kind s = KUpdate → st_table s ≠ Stations → P s) →
  preserves (sends P) (Sync.push_platform false changes lp).
Proof.
  intros HP. apply preserves_push_platform;
    [apply sends_refl | apply sends_trans | apply sends_utcnow | discriminate
    | intros _; apply sends_update; intros s Hk Ht; apply HP; [done|];
      by rewrite Ht..].
Qed.




(** ** Matching by name alone *)


Lemma apply_updates_nil (t : table) (existing : row) (dry_run : bool)
    (preview : list (string * value) → line) (changes : gmap string Z) (w : world) :
  Sync.apply_updates t [] existing dry_run preview changes w = (Ok changes, w).
Proof. reflexivity. Qed.









(** * Further properties of the scripts *)

(** ** [push_station]: previews and counters *)

Lemma apply_updates_dry_result (t : table) (updates : list (string * value))
    (existing : row) (preview : list (string * value) → line)
    (changes changes' : gmap string Z) (w w' : world) :
  Sync.apply_updates t updates existing true preview changes w
  = (Ok changes', w') →
  changes' = changes.
Proof.
  unfold Sync.apply_updates. destruct updates as [|u us]; intros H.
  - apply ret_inv in H. by destruct H as [<- _].
  - apply bind_inv_ok in H. destruct H as (now & w1 & _ & H).
    apply bind_inv_ok in H. destruct H as (? & w2 & _ & H).
    apply ret_inv in H. by destruct H as [<- _].
Qed.

Lemma push_instrument_dry_result (changes changes' : gmap string Z)
    (li : instrument_doc) (w w' : world) :
  Sync.push_instrument true changes li w = (Ok changes', w') →
  changes' = changes.
Proof.
  unfold Sync.push_instrument. intros H.
  apply bind_inv_ok in H. destruct H as (name & w1 & _ & H).
  apply bind_inv_ok in H. destruct H as (e & w2 & _ & H).
  destruct e as [e|]; [|apply ret_inv in H; by destruct H as [<- _]].
  destruct (Py.truthy_dict e); [|apply ret_inv in H; by destruct H as [<- _]].
  by eapply apply_updates_dry_result.
Qed.

Lemma push_platform_dry_result (changes changes' : gmap string Z)
    (lp : platform_doc) (w w' : world) :
  Sync.push_platform true changes lp w = (Ok changes', w') →
  changes' = changes.
Proof.
  unfold Sync.push_platform. intros H.
  apply bind_inv_ok in H. destruct H as (name & w1 & _ & H).
  apply bind_inv_ok in H. destruct H as (e & w2 & _ & H).
  destruct e as [e|]; [|apply ret_inv in H; by destruct H as [<- _]].
  destruct (Py.truthy_dict e); [|apply ret_inv in H; by destruct H as [<- _]].
  apply bind_inv_ok in H. destruct H as (ch & w3 & H1 & H).
  apply apply_updates_dry_result in H1. subst ch.
  apply (foldM_ok_inv (λ c, c = changes)) in H; [done| |done].
  intros b x wa b' wb -> Hb. by apply push_instrument_dry_result in Hb.
Qed.

(** X1. A dry run of [push_station] changes nothing: whatever the
    candidate and however many fields diverge, the store is the one it
    started with, no statement has been sent, and the counters it returns
    are all zero (the previews are printed, not counted). *)
Theorem push_dry_run_changes_nothing
    (acr : string) (cand : station_doc) (w : world) :
  let run := Sync.push_station acr cand true w in
  db run.2 = db w
  ∧ writes run.2 = writes w
  ∧ ∀ changes, run.1 = Ok changes → changes = Sync.no_changes.
Proof.
  intros run. destruct (push_dry_run_frozen acr cand w) as [Hdb Hw].
  fold run in Hdb, Hw. split; [done|]. split; [done|].
  intros changes Hok. destruct run as [o w'] eqn:E. simpl in Hok. subst o.
  unfold Sync.push_station in E.
  apply bind_inv_ok in E. destruct E as (station & w1 & _ & E).
  apply bind_inv_ok in E. destruct E as (ch & w2 & H1 & E).
  apply apply_updates_dry_result in H1. subst ch.
  apply (foldM_ok_inv (λ c, c = Sync.no_changes)) in E; [done| |done].
  intros b x wa b' wb -> Hb. by apply push_platform_dry_result in Hb.
Qed.

(** An invariant tying the accumulator of a loop to the world. *)
Lemma foldM_inv {A B} (P : B → world → Prop) (f : B → A → M B) (l : list A) :
  (∀ b x w b' w', P b w → f b x w = (Ok b', w') → P b' w') →
  ∀ b w b' w', P b w → foldM f b l w = (Ok b', w') → P b' w'.
Proof.
  intros Hf. induction l as [|x l IH]; intros b w b' w' Hb H; simpl in H.
  - apply ret_inv in H. by destruct H as [<- <-].
  - apply bind_inv_ok in H. destruct H as (b1 & w1 & H1 & H). eauto.
Qed.

(** The [updated] counter runs [n] ahead of the log. *)
Definition counted (n : Z) (changes : gmap string Z) (w : world) : Prop :=
  changes !! "updated" = Some (Z.of_nat (length (writes w)) - n).

Lemma apply_updates_counted (n : Z) (t : table) (updates : list (string * value))
    (existing : row) (preview : list (string * value) → line)
    (changes changes' : gmap string Z) (w w' : world) :
  counted n changes w →
  Sync.apply_updates t updates existing false preview changes w
  = (Ok changes', w') →
  counted n changes' w'.
Proof.
  unfold counted. intros Hc H. destruct updates as [|u us].
  - apply ret_inv in H. by destruct H as [<- <-].
  - pose proof H as H'.
    unfold Sync.apply_updates in H.
    apply bind_inv_ok in H. destruct H as (now & w1 & _ & H).
    apply bind_inv_ok in H. destruct H as (id & w2 & Hid & _).
    apply getitem_inv in Hid. destruct Hid as [Hid _].
    rewrite (apply_updates_real_eq t (u :: us) existing id preview changes w
               Hid ltac:(done)) in H'.
    inversion H'; subst; clear H'. simpl.
    unfold Sync.incr. rewrite lookup_insert_eq, Hc. simpl.
    f_equal. rewrite length_app. simpl. lia.
Qed.

Lemma push_instrument_counted (n : Z) (changes changes' : gmap string Z)
    (li : instrument_doc) (w w' : world) :
  counted n changes w →
  Sync.push_instrument false changes li w = (Ok changes', w') →
  counted n changes' w'.
Proof.
  unfold Sync.push_instrument. intros Hc H.
  apply bind_inv_ok in H. destruct H as (name & w1 & Hn & H).
  apply getitem_inv in Hn. destruct Hn as [_ ->].
  apply bind_inv_ok in H. destruct H as (e & w2 & Hq & H).
  rewrite query_one_eq in Hq. inversion Hq; subst; clear Hq.
  destruct (head _) as [e|]; [|apply ret_inv in H; by destruct H as [<- <-]].
  destruct (Py.truthy_dict e); [|apply ret_inv in H; by destruct H as [<- <-]].
  by eapply apply_updates_counted.
Qed.

Lemma push_platform_counted (n : Z) (changes changes' : gmap string Z)
    (lp : platform_doc) (w w' : world) :
  counted n changes w →
  Sync.push_platform false changes lp w = (Ok changes', w') →
  counted n changes' w'.
Proof.
  unfold Sync.push_platform. intros Hc H.
  apply bind_inv_ok in H. destruct H as (name & w1 & Hn & H).
  apply getitem_inv in Hn. destruct Hn as [_ ->].
  apply bind_inv_ok in H. destruct H as (e & w2 & Hq & H).
  rewrite query_one_eq in Hq. inversion Hq; subst; clear Hq.
  destruct (head _) as [e|]; [|apply ret_inv in H; by destruct H as [<- <-]].
  destruct (Py.truthy_dict e); [|apply ret_inv in H; by destruct H as [<- <-]].
  apply bind_inv_ok in H. destruct H as (ch & w3 & H1 & H).
  eapply (foldM_inv (counted n)); [| |exact H].
  - intros. by eapply push_instrument_counted.
  - by eapply apply_updates_counted.
Qed.

(** X2. When a non-dry-run push returns, its [updated] counter is the
    number of UPDATE statements it sent. *)
Theorem push_counts_its_statements
    (acr : string) (cand : station_doc) (w w' : world)
    (changes : gmap string Z) :
  Sync.push_station acr cand false w = (Ok changes, w') →
  ∃ extra,
    writes w' = writes w ++ extra
    ∧ changes !! "updated" = Some (Z.of_nat (length extra)).
Proof.
  intros H.
  destruct (push_only_updates acr cand w) as [(extra & Hw & _) _].
  rewrite H in Hw. simpl in Hw. exists extra. split; [done|].
  unfold Sync.push_station in H.
  apply bind_inv_ok in H. destruct H as (station & w1 & Hs & H).
  apply lookup_station_inv in Hs. destruct Hs as (-> & _ & _).
  apply bind_inv_ok in H. destruct H as (ch & w2 & H1 & H).
  assert (counted (Z.of_nat (length (writes w))) changes w') as Hc.
  { eapply (foldM_inv (counted _)); [| |exact H].
    - intros. by eapply push_platform_counted.
    - eapply apply_updates_counted; [|exact H1].
      unfold counted, Sync.no_changes. rewrite lookup_insert_eq. f_equal. lia. }
  unfold counted in Hc. rewrite Hc, Hw, length_app. f_equal. lia.
Qed.

Lemma run_eq {A} (m : M A) (w : world) (a : A) :
  (m w).1 = Ok a → m w = (Ok a, (m w).2).
Proof. intros <-. apply surjective_pairing. Qed.

Lemma push_counts_its_statements_witness :
  let w := Fixture.world_of Fixture.svb in
  let cand :=
    StationDoc {[ "display_name" := VStr "Svartberget station" ]}
      (Some [PlatformDoc {[ "normalized_name" := VStr "SVB_FOR_PL01";
                            "status" := VStr "Inactive" ]} None]) ∅ in
  ∃ changes w',
    Sync.push_station "SVB" cand false w = (Ok changes, w')
    ∧ length (writes w') = 2%nat
    ∧ changes !! "updated" = Some 2.
Proof.
  intros w cand.
  assert (Sync.push_station "SVB" cand false w
          = (Ok (Sync.incr "updated" (Sync.incr "updated" Sync.no_changes)),
             (Sync.push_station "SVB" cand false w).2)) as E.
  { apply run_eq. vm_compute. reflexivity. }
  eexists _, _. split; [exact E|].
  assert (length (writes (Sync.push_station "SVB" cand false w).2) = 2%nat)
    as Hlen by (vm_compute; reflexivity).
  split; [done|].
  destruct (push_counts_its_statements "SVB" cand w _ _ E)
    as (extra & Hw & Hc).
  rewrite Hw in Hlen. simpl in Hlen. by rewrite Hc, Hlen.
Defined.

(** ** [push_station]: a second push finds the station settled *)








Lemma push_station_after_lookup (acr : string) (cand : station_doc)
    (station : row) (w : world) :
  Sync.lookup_station acr w = (Ok station, w) →
  Sync.collect_updates Sync.station_fields (st_fields cand) station = [] →
  sends (λ s, st_table s ≠ Stations) w (Sync.push_station acr cand false w).2.
Proof.
  intros Hs Hnone. unfold Sync.push_station.
  rewrite (bind_ok _ _ _ _ _ Hs), Hnone.
  rewrite (bind_ok _ _ _ _ _ (apply_updates_nil _ _ _ _ _ _)).
  apply preserves_foldM; [apply sends_refl | apply sends_trans|].
  intros b x. by apply push_platform_sends.
Qed.






(** ** The commands that only read *)





Lemma same_trans (w1 w2 w3 : world) : w2 = w1 → w3 = w2 → w3 = w1.
Proof. congruence. Qed.

Lemma diff_platform_same (lps : list (value * platform_doc)) (r : row) :
  preserves (λ w w', w' = w) (Sync.diff_platform lps r).
Proof.
  unfold Sync.diff_platform. apply preserves_bind; [apply same_trans| |].
  - by apply preserves_getitem.
  - intros name. destruct (Py.lookup lps name); by apply preserves_ret.
Qed.

Lemma index_platform_same (p : platform_doc) :
  preserves (λ w w', w' = w) (Sync.index_platform p).
Proof.
  unfold Sync.index_platform. apply preserves_bind; [apply same_trans| |].
  - by apply preserves_getitem.
  - intros name. by apply preserves_ret.
Qed.

Lemma pull_instrument_same (r : row) :
  preserves (λ w w', w' = w) (Sync.pull_instrument r).
Proof.
  unfold Sync.pull_instrument. apply preserves_bind; [apply same_trans| |].
  - by apply preserves_getitem.
  - intros iid. apply preserves_bind; [apply same_trans| |].
    + by apply preserves_query_ordered.
    + intros rois. by apply preserves_ret.
Qed.

Lemma pull_platform_same (r : row) :
  preserves (λ w w', w' = w) (Sync.pull_platform r).
Proof.
  unfold Sync.pull_platform. apply preserves_bind; [apply same_trans| |].
  - by apply preserves_getitem.
  - intros pid. apply preserves_bind; [apply same_trans| |].
    + by apply preserves_query_ordered.
    + intros is_. apply preserves_bind; [apply same_trans| |].
      * apply preserves_mapM; [done | apply same_trans |].
        apply pull_instrument_same.
      * intros ds. by apply preserves_ret.
Qed.


(** ** What [diff_station] leaves out *)

Lemma mapM_same_Forall2 {A B} (f : A → M B) (l : list A) (w w' : world)
    (ys : list B) :
  (∀ x, preserves (λ w w', w' = w) (f x)) →
  mapM f l w = (Ok ys, w') →
  w' = w ∧ Forall2 (λ x y, f x w = (Ok y, w)) l ys.
Proof.
  intros Hf. revert ys. induction l as [|x l IH]; intros ys H; simpl in H.
  - apply ret_inv in H. destruct H as [<- <-]. by split.
  - apply bind_inv_ok in H. destruct H as (y & w1 & Hy & H).
    pose proof (Hf x w) as Hw. rewrite Hy in Hw. simpl in Hw. subst w1.
    apply bind_inv_ok in H. destruct H as (ys' & w2 & Hys & H).
    apply ret_inv in H. destruct H as [<- <-].
    destruct (IH _ Hys) as [-> HF]. split; [done|]. by constructor.
Qed.

(** X5. [diff_station] never compares instruments, and the platform
    changes it reports are all for platform rows of the station found in
    the store: a platform that exists only in the candidate is not
    mentioned. *)
Theorem diff_reports_only_store_platforms
    (acr : string) (cand : station_doc) (w w' : world) (d : Sync.differences) :
  Sync.diff_station acr cand w = (Ok d, w') →
  Sync.diff_instruments d = []
  ∧ ∃ station sid,
      Sync.lookup_station acr w = (Ok station, w)
      ∧ station !! "id" = Some sid
      ∧ ∀ c, c ∈ Sync.diff_platforms d →
          ∃ r name,
            r ∈ Sql.select_where Platforms "station_id" sid (db w)
            ∧ r !! "normalized_name" = Some name
            ∧ Sync.ch_platform c = Some name
            ∧ Sync.ch_field c ∈ Sync.diff_fields_platform
            ∧ Sync.ch_database c = Py.get r (Sync.ch_field c).
Proof.
  unfold Sync.diff_station. intros H.
  apply bind_inv_ok in H. destruct H as (station & w1 & Hs & H).
  destruct (lookup_station_inv _ _ _ _ Hs) as (-> & _ & _).
  apply bind_inv_ok in H. destruct H as (lps & w1 & Hl & H).
  apply mapM_same_Forall2 in Hl; [|apply index_platform_same].
  destruct Hl as [-> _].
  apply bind_inv_ok in H. destruct H as (sid & w1 & Hsid & H).
  apply getitem_inv in Hsid. destruct Hsid as [Hsid ->].
  apply bind_inv_ok in H. destruct H as (dbp & w1 & Hq & H).
  unfold D1.query in Hq. inversion Hq; subst dbp w1; clear Hq.
  apply bind_inv_ok in H. destruct H as (pds & w1 & Hm & H).
  apply ret_inv in H. destruct H as [<- <-].
  apply mapM_same_Forall2 in Hm; [|apply diff_platform_same].
  destruct Hm as [-> HF]. simpl. split; [done|].
  exists station, sid. split; [done|]. split; [done|].
  intros c Hc. apply list_elem_of_In, in_concat in Hc.
  destruct Hc as (cs & Hcs & Hc). apply list_elem_of_In in Hcs, Hc.
  apply list_elem_of_lookup in Hcs. destruct Hcs as [i Hi].
  destruct (Forall2_lookup_r _ _ _ _ _ HF Hi) as (r & Hri & Hrun).
  apply list_elem_of_lookup_2 in Hri.
  unfold Sync.diff_platform in Hrun.
  apply bind_inv_ok in Hrun. destruct Hrun as (name & w1 & Hn & Hrun).
  apply getitem_inv in Hn. destruct Hn as [Hn ->].
  exists r, name. split; [done|]. split; [done|].
  destruct (Py.lookup lps name) as [lp|];
    apply ret_inv in Hrun; destruct Hrun as [<- _].
  - apply compare_fields_spec in Hc. destruct Hc as (f & Hf & -> & _).
    by repeat split.
  - by apply not_elem_of_nil in Hc.
Qed.

Lemma diff_reports_only_store_platforms_witness :
  let w := Fixture.world_of Fixture.svb in
  let cand :=
    StationDoc {[ "display_name" := VStr "Svartberget" ]}
      (Some [PlatformDoc {[ "normalized_name" := VStr "SVB_FOR_PL01";
                            "status" := VStr "Inactive" ]} None;
             PlatformDoc {[ "normalized_name" := VStr "SVB_FOR_PL09";
                            "status" := VStr "Active" ]} None]) ∅ in
  ∃ d w',
    Sync.diff_station "SVB" cand w = (Ok d, w')
    ∧ Sync.diff_instruments d = []
    ∧ Forall (λ c, Sync.ch_platform c = Some (VStr "SVB_FOR_PL01"))
        (Sync.diff_platforms d).
Proof.
  intros w cand.
  assert (Sync.diff_station "SVB" cand w
          = (Ok (Sync.Differences []
                   [Sync.Change (Some (VStr "SVB_FOR_PL01")) "display_name"
                      VNull (VStr "Mast");
                    Sync.Change (Some (VStr "SVB_FOR_PL01")) "status"
                      (VStr "Inactive") (VStr "Active")] []),
             (Sync.diff_station "SVB" cand w).2)) as E.
  { apply run_eq. vm_compute. reflexivity. }
  eexists _, _. split; [exact E|].
  destruct (diff_reports_only_store_platforms "SVB" cand w _ _ E) as [Hi _].
  split; [exact Hi|]. by repeat constructor.
Defined.

Lemma diff_station_level (acr : string) (cand : station_doc) (w w' : world)
    (d : Sync.differences) :
  Sync.diff_station acr cand w = (Ok d, w') →
  ∃ station,
    Sync.lookup_station acr w = (Ok station, w)
    ∧ Sync.diff_station_ d
      = Sync.compare_fields None Sync.station_fields (st_fields cand) station.
Proof.
  unfold Sync.diff_station. intros H.
  apply bind_inv_ok in H. destruct H as (station & w1 & Hs & H).
  destruct (lookup_station_inv _ _ _ _ Hs) as (-> & _ & _).
  exists station. split; [done|].
  repeat (apply bind_inv_ok in H; destruct H as (? & ? & _ & H)).
  apply ret_inv in H. by destruct H as [<- _].
Qed.

(** X6. Whatever a push would write to the station row, [diff_station]
    reports: when the differ shows no station-level change for a candidate,
    a push of that candidate sends no UPDATE to the stations table. *)
Theorem no_station_diff_no_station_update
    (acr : string) (cand : station_doc) (w w' : world) (d : Sync.differences) :
  Sync.diff_station acr cand w = (Ok d, w') →
  Sync.diff_station_ d = [] →
  sends (λ s, st_table s ≠ Stations) w (Sync.push_station acr cand false w).2.
Proof.
  intros H Hnone.
  destruct (diff_station_level acr cand w w' d H) as (station & Hs & Hd).
  apply (push_station_after_lookup acr cand station w Hs).
  destruct (Sync.collect_updates Sync.station_fields (st_fields cand) station)
    as [|[f v] l] eqn:E; [done|]. exfalso.
  assert ((f, v) ∈ Sync.collect_updates Sync.station_fields (st_fields cand)
            station) as Hin by (rewrite E; left).
  apply collect_updates_spec in Hin. destruct Hin as (Hf & Hl & Hne).
  assert (Sync.Change None f (Py.get (st_fields cand) f) (Py.get station f)
          ∈ Sync.diff_station_ d) as Hc.
  { rewrite Hd. apply compare_fields_spec. exists f. split; [done|].
    split; [done|]. by rewrite (get_some _ _ _ Hl). }
  rewrite Hnone in Hc. by apply not_elem_of_nil in Hc.
Qed.

Lemma no_station_diff_no_station_update_witness :
  let w := Fixture.world_of Fixture.svb in
  let cand :=
    StationDoc {[ "display_name" := VStr "Svartberget" ]}
      (Some [PlatformDoc {[ "normalized_name" := VStr "SVB_FOR_PL01";
                            "status" := VStr "Inactive" ]} None]) ∅ in
  sends (λ s, st_table s ≠ Stations) w (Sync.push_station "SVB" cand false w).2.
Proof.
  intros w cand.
  assert (Sync.diff_station "SVB" cand w
          = (Ok (Sync.Differences []
                   [Sync.Change (Some (VStr "SVB_FOR_PL01")) "display_name"
                      VNull (VStr "Mast");
                    Sync.Change (Some (VStr "SVB_FOR_PL01")) "status"
                      (VStr "Inactive") (VStr "Active")] []),
             (Sync.diff_station "SVB" cand w).2)) as E.
  { apply run_eq. vm_compute. reflexivity. }
  by apply (no_station_diff_no_station_update "SVB" cand w _ _ E).
Defined.

(** ** [ORDER BY] and the documents assembled from it *)

Definition key_le (col : string) (a b : row) : Prop :=
  Sql.leb (Py.get a col) (Py.get b col) = true.

Lemma sql_leb_total (a b : value) : Sql.leb a b = true ∨ Sql.leb b a = true.
Proof.
  unfold Sql.leb.
  destruct (Py.norm a) as [| |x|x], (Py.norm b) as [| |y|y]; simpl; auto.
  - destruct (Z.leb_spec x y); [by left|]. right. apply Z.leb_le. lia.
  - apply String.leb_total.
Qed.

Lemma insert_sorted_HdRel (col : string) (a r : row) (l : list row) :
  key_le col a r → HdRel (key_le col) a l →
  HdRel (key_le col) a (Sql.insert_sorted col r l).
Proof.
  intros Har Hal. destruct l as [|x l]; simpl.
  - by constructor.
  - destruct (Sql.leb (Py.get r col) (Py.get x col)); constructor; [done|].
    by inversion Hal.
Qed.

Lemma insert_sorted_Sorted (col : string) (r : row) (l : list row) :
  Sorted (key_le col) l → Sorted (key_le col) (Sql.insert_sorted col r l).
Proof.
  induction l as [|x l IH]; simpl; intros HS.
  - by repeat constructor.
  - destruct (Sql.leb (Py.get r col) (Py.get x col)) eqn:E.
    + constructor; [done|]. by constructor.
    + inversion HS as [|? ? HS' Hhd]; subst. constructor; [by apply IH|].
      apply insert_sorted_HdRel; [|done].
      unfold key_le. destruct (sql_leb_total (Py.get x col) (Py.get r col));
        [done | congruence].
Qed.

Lemma order_by_Sorted (col : string) (l : list row) :
  Sorted (key_le col) (Sql.order_by col l).
Proof.
  unfold Sql.order_by. induction l as [|r l IH]; simpl.
  - constructor.
  - by apply insert_sorted_Sorted.
Qed.

Lemma insert_sorted_Permutation (col : string) (r : row) (l : list row) :
  Sql.insert_sorted col r l ≡ₚ r :: l.
Proof.
  induction l as [|x l IH]; simpl; [done|].
  destruct (Sql.leb (Py.get r col) (Py.get x col)); [done|].
  rewrite IH. apply Permutation_swap.
Qed.

Lemma order_by_Permutation (col : string) (l : list row) :
  Sql.order_by col l ≡ₚ l.
Proof.
  unfold Sql.order_by. induction l as [|r l IH]; simpl; [done|].
  by rewrite insert_sorted_Permutation, IH.
Qed.

Lemma pull_instrument_inv (r : row) (w w' : world) (d : instrument_doc) :
  Sync.pull_instrument r w = (Ok d, w') →
  ∃ iid,
    r !! "id" = Some iid
    ∧ d = InstrumentDoc r
            (Some (Sql.order_by "roi_name"
                     (Sql.select_where InstrumentRois "instrument_id" iid (db w)))).
Proof.
  unfold Sync.pull_instrument. intros H.
  apply bind_inv_ok in H. destruct H as (iid & w1 & Hi & H).
  apply getitem_inv in Hi. destruct Hi as [Hi ->].
  apply bind_inv_ok in H. destruct H as (rois & w1 & Hq & H).
  unfold D1.query_ordered in Hq. inversion Hq; subst rois w1; clear Hq.
  apply ret_inv in H. destruct H as [<- _]. by exists iid.
Qed.

Lemma pull_platform_inv (r : row) (w w' : world) (d : platform_doc) :
  Sync.pull_platform r w = (Ok d, w') →
  ∃ pid ds,
    r !! "id" = Some pid
    ∧ d = PlatformDoc r (Some ds)
    ∧ Forall2 (λ x y, Sync.pull_instrument x w = (Ok y, w))
        (Sql.order_by "normalized_name"
           (Sql.select_where Instruments "platform_id" pid (db w))) ds.
Proof.
  unfold Sync.pull_platform. intros H.
  apply bind_inv_ok in H. destruct H as (pid & w1 & Hi & H).
  apply getitem_inv in Hi. destruct Hi as [Hi ->].
  apply bind_inv_ok in H. destruct H as (rows & w1 & Hq & H).
  unfold D1.query_ordered in Hq. inversion Hq; subst rows w1; clear Hq.
  apply bind_inv_ok in H. destruct H as (ds & w1 & Hm & H).
  apply mapM_same_Forall2 in Hm; [|apply pull_instrument_same].
  destruct Hm as [-> HF].
  apply ret_inv in H. destruct H as [<- _]. by exists pid, ds.
Qed.

Lemma Forall2_map_eq {A B} (g : B → A) (l : list A) (k : list B) :
  Forall2 (λ x y, g y = x) l k → map g k = l.
Proof. induction 1; simpl; congruence. Qed.

Lemma pull_instruments_rows (w : world) (rows : list row)
    (ds : list instrument_doc) :
  Forall2 (λ x y, Sync.pull_instrument x w = (Ok y, w)) rows ds →
  map inst_fields ds = rows.
Proof.
  intros HF. apply Forall2_map_eq. eapply Forall2_impl; [exact HF|].
  intros x y H. apply pull_instrument_inv in H. by destruct H as (? & _ & ->).
Qed.

Lemma pull_platforms_rows (w : world) (rows : list row)
    (ds : list platform_doc) :
  Forall2 (λ x y, Sync.pull_platform x w = (Ok y, w)) rows ds →
  map plat_fields ds = rows.
Proof.
  intros HF. apply Forall2_map_eq. eapply Forall2_impl; [exact HF|].
  intros x y H. apply pull_platform_inv in H.
  by destruct H as (? & ? & _ & -> & _).
Qed.

(** X7. The document [pull_station] assembles lists, under the station,
    exactly the platform rows whose [station_id] is the station's id, each
    once and in [normalized_name] order; under each platform exactly its
    instrument rows, in [normalized_name] order; and under each instrument
    exactly its ROI rows, in [roi_name] order. *)
Theorem pull_lists_children_in_key_order
    (acr : string) (w w' : world) (doc : station_doc) :
  Sync.pull_station acr w = (Ok doc, w') →
  ∃ sid ps,
    st_fields doc !! "id" = Some sid
    ∧ st_platforms doc = Some ps
    ∧ map plat_fields ps ≡ₚ Sql.select_where Platforms "station_id" sid (db w)
    ∧ Sorted (key_le "normalized_name") (map plat_fields ps)
    ∧ ∀ p, p ∈ ps →
        ∃ pid ds,
          plat_fields p !! "id" = Some pid
          ∧ plat_instruments p = Some ds
          ∧ map inst_fields ds
              ≡ₚ Sql.select_where Instruments "platform_id" pid (db w)
          ∧ Sorted (key_le "normalized_name") (map inst_fields ds)
          ∧ ∀ i, i ∈ ds →
              ∃ iid rois,
                inst_fields i !! "id" = Some iid
                ∧ inst_rois i = Some rois
                ∧ rois ≡ₚ Sql.select_where InstrumentRois "instrument_id" iid
                            (db w)
                ∧ Sorted (key_le "roi_name") rois.
Proof.
  unfold Sync.pull_station. intros H.
  apply bind_inv_ok in H. destruct H as (station & w1 & Hs & H).
  destruct (lookup_station_inv _ _ _ _ Hs) as (-> & _ & _).
  apply bind_inv_ok in H. destruct H as (sid & w1 & Hi & H).
  apply getitem_inv in Hi. destruct Hi as [Hi ->].
  apply bind_inv_ok in H. destruct H as (rows & w1 & Hq & H).
  unfold D1.query_ordered in Hq. inversion Hq; subst rows w1; clear Hq.
  apply bind_inv_ok in H. destruct H as (ps & w1 & Hm & H).
  apply mapM_same_Forall2 in Hm; [|apply pull_platform_same].
  destruct Hm as [-> HF].
  apply bind_inv_ok in H. destruct H as (now & w1 & _ & H).
  apply ret_inv in H. destruct H as [<- _]. simpl.
  exists sid, ps. split; [done|]. split; [done|].
  rewrite (pull_platforms_rows _ _ _ HF).
  split; [apply order_by_Permutation|]. split; [apply order_by_Sorted|].
  intros p Hp. apply list_elem_of_lookup in Hp. destruct Hp as [n Hn].
  destruct (Forall2_lookup_r _ _ _ _ _ HF Hn) as (r & _ & Hr).
  apply pull_platform_inv in Hr. destruct Hr as (pid & ds & Hpid & -> & HFi).
  exists pid, ds. simpl. split; [done|]. split; [done|].
  rewrite (pull_instruments_rows _ _ _ HFi).
  split; [apply order_by_Permutation|]. split; [apply order_by_Sorted|].
  intros i Hin. apply list_elem_of_lookup in Hin. destruct Hin as [m Hm].
  destruct (Forall2_lookup_r _ _ _ _ _ HFi Hm) as (ri & _ & Hri).
  apply pull_instrument_inv in Hri. destruct Hri as (iid & Hiid & ->).
  exists iid. eexists. simpl. split; [done|]. split; [done|].
  split; [apply order_by_Permutation | apply order_by_Sorted].
Qed.

Lemma pull_lists_children_in_key_order_witness :
  let w := Fixture.world_of Fixture.svb in
  ∃ doc,
    (Sync.pull_station "SVB" w).1 = Ok doc
    ∧ ∃ ps, st_platforms doc = Some ps
            ∧ Sorted (key_le "normalized_name") (map plat_fields ps).
Proof.
  intros w.
  destruct (Sync.pull_station "SVB" w) as [o w'] eqn:E.
  assert (∃ doc, o = Ok doc) as [doc ->].
  { assert (match (Sync.pull_station "SVB" w).1 with Ok _ => true | _ => false end
            = true) as Hok by (vm_compute; reflexivity).
    rewrite E in Hok. simpl in Hok. destruct o; [by eexists | discriminate]. }
  exists doc. split; [done|].
  destruct (pull_lists_children_in_key_order "SVB" w w' doc E)
    as (sid & ps & _ & Hps & _ & Hsorted & _).
  by exists ps.
Defined.

(** ** [export_station_data] against [pull_station] *)

Lemma export_instrument_same (r : row) :
  preserves (λ w w', w' = w) (ExportStation.export_instrument r).
Proof.
  unfold ExportStation.export_instrument.
  apply preserves_bind; [apply same_trans| |].
  - by apply preserves_getitem.
  - intros iid. apply preserves_bind; [apply same_trans| |].
    + by apply preserves_query_ordered.
    + intros rois. by apply preserves_ret.
Qed.

Lemma export_platform_same (r : row) :
  preserves (λ w w', w' = w) (ExportStation.export_platform r).
Proof.
  unfold ExportStation.export_platform.
  apply preserves_bind; [apply same_trans| |].
  - by apply preserves_getitem.
  - intros pid. apply preserves_bind; [apply same_trans| |].
    + by apply preserves_query_ordered.
    + intros is_. apply preserves_bind; [apply same_trans| |].
      * apply preserves_mapM; [done | apply same_trans |].
        apply export_instrument_same.
      * intros ds. by apply preserves_ret.
Qed.

Lemma export_platform_fields (r : row) (w w' : world) (d : platform_doc) :
  ExportStation.export_platform r w = (Ok d, w') → plat_fields d = r.
Proof.
  unfold ExportStation.export_platform. intros H.
  apply bind_inv_ok in H. destruct H as (pid & w1 & _ & H).
  apply bind_inv_ok in H. destruct H as (rows & w2 & _ & H).
  apply bind_inv_ok in H. destruct H as (ds & w3 & _ & H).
  apply ret_inv in H. by destruct H as [<- _].
Qed.

(** X8. The JSON export and the pull of one station list the same platform
    rows under the same station row; they differ in order only: the export
    sorts them by [display_name], the pull by [normalized_name]. *)
Theorem export_and_pull_list_the_same_platforms
    (acr : string) (w w1 w2 : world) (pulled exported : station_doc) :
  Sync.pull_station acr w = (Ok pulled, w1) →
  ExportStation.export_station_data acr w = (Ok exported, w2) →
  st_fields pulled = st_fields exported
  ∧ ∃ ps1 ps2,
      st_platforms pulled = Some ps1
      ∧ st_platforms exported = Some ps2
      ∧ map plat_fields ps1 ≡ₚ map plat_fields ps2
      ∧ Sorted (key_le "normalized_name") (map plat_fields ps1)
      ∧ Sorted (key_le "display_name") (map plat_fields ps2).
Proof.
  unfold Sync.pull_station, ExportStation.export_station_data. intros H1 H2.
  apply bind_inv_ok in H1. destruct H1 as (station & w0 & Hs & H1).
  destruct (lookup_station_inv _ _ _ _ Hs) as (-> & _ & _).
  rewrite (bind_ok _ _ _ _ _ Hs) in H2.
  apply bind_inv_ok in H2. destruct H2 as (dn & w0 & Hd & H2).
  apply getitem_inv in Hd. destruct Hd as [_ ->].
  apply bind_inv_ok in H1. destruct H1 as (sid & w0 & Hi & H1).
  rewrite (bind_ok _ _ _ _ _ Hi) in H2.
  apply getitem_inv in Hi. destruct Hi as [Hi ->].
  apply bind_inv_ok in H1. destruct H1 as (rows1 & w0 & Hq1 & H1).
  unfold D1.query_ordered in Hq1. inversion Hq1; subst rows1 w0; clear Hq1.
  apply bind_inv_ok in H2. destruct H2 as (rows2 & w0 & Hq2 & H2).
  unfold D1.query_ordered in Hq2. inversion Hq2; subst rows2 w0; clear Hq2.
  apply bind_inv_ok in H1. destruct H1 as (ps1 & w0 & Hm1 & H1).
  apply mapM_same_Forall2 in Hm1; [|apply pull_platform_same].
  destruct Hm1 as [-> HF1].
  apply bind_inv_ok in H2. destruct H2 as (ps2 & w0 & Hm2 & H2).
  apply mapM_same_Forall2 in Hm2; [|apply export_platform_same].
  destruct Hm2 as [-> HF2].
  apply bind_inv_ok in H1. destruct H1 as (now1 & w0 & _ & H1).
  apply ret_inv in H1. destruct H1 as [<- _].
  apply bind_inv_ok in H2. destruct H2 as (now2 & w0' & _ & H2).
  apply ret_inv in H2. destruct H2 as [<- _]. simpl.
  split; [done|]. exists ps1, ps2. split; [done|]. split; [done|].
  rewrite (pull_platforms_rows _ _ _ HF1).
  assert (map plat_fields ps2
          = Sql.order_by "display_name"
              (Sql.select_where Platforms "station_id" sid (db w))) as ->.
  { apply Forall2_map_eq. eapply Forall2_impl; [exact HF2|].
    intros x y H. by apply export_platform_fields in H. }
  split; [by rewrite !order_by_Permutation|].
  split; apply order_by_Sorted.
Qed.

Lemma export_and_pull_list_the_same_platforms_witness :
  let w := Fixture.world_of Fixture.svb in
  ∃ pulled exported,
    (Sync.pull_station "SVB" w).1 = Ok pulled
    ∧ (ExportStation.export_station_data "SVB" w).1 = Ok exported
    ∧ st_fields pulled = st_fields exported.
Proof.
  intros w.
  destruct (Sync.pull_station "SVB" w) as [o1 w1] eqn:E1.
  destruct (ExportStation.export_station_data "SVB" w) as [o2 w2] eqn:E2.
  assert (∃ doc, o1 = Ok doc) as [pulled ->].
  { assert (match (Sync.pull_station "SVB" w).1 with Ok _ => true | _ => false end
            = true) as Hok by (vm_compute; reflexivity).
    rewrite E1 in Hok. simpl in Hok. destruct o1; [by eexists | discriminate]. }
  assert (∃ doc, o2 = Ok doc) as [exported ->].
  { assert (match (ExportStation.export_station_data "SVB" w).1 with
            | Ok _ => true | _ => false end = true) as Hok
      by (vm_compute; reflexivity).
    rewrite E2 in Hok. simpl in Hok. destruct o2; [by eexists | discriminate]. }
  exists pulled, exported. split; [done|]. split; [done|].
  by destruct (export_and_pull_list_the_same_platforms "SVB" w w1 w2
                 pulled exported E1 E2) as [Hf _].
Defined.

(** ** [import_instruments]: one row at a time *)

Lemma project_lookup_id (r : row) :
  BulkImport.project ["id"] r !! "id" = Some (Py.get r "id").
Proof. unfold BulkImport.project. simpl. apply lookup_insert_eq. Qed.















(** ** [import_platforms]: no row is isolated *)








(** ** [bulk_import.py]: [import_rois] *)

Module ImportRois.

Definition not_found (instrument_name : string) : exn :=
  ValueError ("Instrument " +:+ instrument_name +:+ " not found").

(** [SELECT id FROM instruments WHERE normalized_name = ?] and the
    [if not instrument] after it. *)
Definition lookup_instrument_id (instrument_name : string) : M row :=
  let* rs := D1.query Instruments "normalized_name" (VStr instrument_name) in
  match head (map (BulkImport.project ["id"]) rs) with
  | Some r => if Py.truthy_dict r then ret r
              else raise (not_found instrument_name)
  | None => raise (not_found instrument_name)
  end.

Definition import_roi_row (instrument : row) (dry_run : bool)
    (imported : list (list (string * value))) (r : row)
  : M (list (list (string * value))) :=
  let* iid := getitem instrument "id" in
  let* roi_name := getitem r "roi_name" in
  let* created_at := utcnow in
  let* updated_at := utcnow in
  let roi_data :=
    [("instrument_id", iid);
     ("roi_name", roi_name);
     ("description", Py.get_or r "description" (VStr ""));
     ("polygon_points", Py.get_or r "polygon_points" (VStr "[]"));
     ("color", Py.get_or r "color" (VStr "#FF0000"));
     ("created_at", created_at);
     ("updated_at", updated_at)] in
  if dry_run then
    let* _ := print (WouldInsert roi_name) in
    ret (imported ++ [roi_data])
  else
    let* roi_id := D1.insert InstrumentRois roi_data in
    let* _ := print (Inserted roi_name roi_id) in
    ret (imported ++ [roi_data ++ [("id", VNum roi_id)]]).

Definition import_rois (rows : list row) (instrument_name : string)
    (dry_run : bool) : M (list (list (string * value))) :=
  let* instrument := lookup_instrument_id instrument_name in
  foldM (import_roi_row instrument dry_run) [] rows.

End ImportRois.

(** What a returned ROI dict owes to its row and to the instrument. *)
Definition roi_of (iid : value) (r : row) (d : list (string * value)) : Prop :=
  ("instrument_id", iid) ∈ d
  ∧ (∃ n, r !! "roi_name" = Some n ∧ ("roi_name", n) ∈ d)
  ∧ ("description", Py.get_or r "description" (VStr "")) ∈ d
  ∧ ("polygon_points", Py.get_or r "polygon_points" (VStr "[]")) ∈ d
  ∧ ("color", Py.get_or r "color" (VStr "#FF0000")) ∈ d.

Lemma import_roi_row_inv (instrument : row) (dry_run : bool)
    (imported res : list (list (string * value))) (r : row) (w w' : world) :
  ImportRois.import_roi_row instrument dry_run imported r w = (Ok res, w') →
  ∃ iid d,
    instrument !! "id" = Some iid ∧ res = imported ++ [d] ∧ roi_of iid r d.
Proof.
  unfold ImportRois.import_roi_row. intros H.
  apply bind_inv_ok in H. destruct H as (iid & w1 & Hi & H).
  apply getitem_inv in Hi. destruct Hi as [Hi ->].
  apply bind_inv_ok in H. destruct H as (n & w1 & Hn & H).
  apply getitem_inv in Hn. destruct Hn as [Hn ->].
  apply bind_inv_ok in H. destruct H as (c & w1 & _ & H).
  apply bind_inv_ok in H. destruct H as (u & w2 & _ & H).
  exists iid. destruct dry_run.
  - apply bind_inv_ok in H. destruct H as (? & w3 & _ & H).
    apply ret_inv in H. destruct H as [<- _]. eexists. split; [done|].
    split; [done|]. unfold roi_of. split_and!; try (exists n; split; [done|]);
      rewrite !elem_of_cons; tauto.
  - apply bind_inv_ok in H. destruct H as (rid & w3 & _ & H).
    apply bind_inv_ok in H. destruct H as (? & w4 & _ & H).
    apply ret_inv in H. destruct H as [<- _]. eexists. split; [done|].
    split; [done|]. unfold roi_of. split_and!; try (exists n; split; [done|]);
      rewrite elem_of_app, !elem_of_cons; tauto.
Qed.

Lemma import_rois_loop_inv (instrument : row) (dry_run : bool) (rows : list row)
    (imported res : list (list (string * value))) (w w' : world) :
  foldM (ImportRois.import_roi_row instrument dry_run) imported rows w
  = (Ok res, w') →
  ∃ ds, res = imported ++ ds
        ∧ Forall2 (λ r d, ∃ iid, instrument !! "id" = Some iid ∧ roi_of iid r d)
            rows ds.
Proof.
  revert imported w. induction rows as [|r rows IH]; intros imported w H;
    simpl in H.
  - apply ret_inv in H. destruct H as [<- _]. exists [].
    by rewrite app_nil_r.
  - apply bind_inv_ok in H. destruct H as (res1 & w1 & Hrow & H).
    apply import_roi_row_inv in Hrow. destruct Hrow as (iid & d & Hi & -> & Hd).
    apply IH in H. destruct H as (ds & -> & HF).
    exists (d :: ds). rewrite <- app_assoc. split; [done|].
    constructor; [by exists iid | done].
Qed.

(** X12. The ROIs [import_rois] returns are attached to the first
    instrument row that carries the given name, whichever platform or
    station it belongs to: each returned dict, in row order, has that row's
    id as [instrument_id] and its row's [roi_name], and where the row gives
    none, the defaults: empty description, '[]' as polygon and '#FF0000' as
    color. *)
Theorem import_rois_attaches_to_named_instrument
    (rows : list row) (name : string) (dry_run : bool) (w w' : world)
    (imported : list (list (string * value))) :
  ImportRois.import_rois rows name dry_run w = (Ok imported, w') →
  ∃ e,
    List.find (Sql.matches "normalized_name" (VStr name)) (instruments (db w))
    = Some e
    ∧ Forall2 (roi_of (Py.get e "id")) rows imported.
Proof.
  unfold ImportRois.import_rois. intros H.
  apply bind_inv_ok in H. destruct H as (instrument & w1 & Hs & H).
  unfold ImportRois.lookup_instrument_id, bind, D1.query in Hs. simpl in Hs.
  fold (Sql.select_where Instruments "normalized_name" (VStr name) (db w)) in Hs.
  pose proof (select_where_find Instruments "normalized_name" (VStr name) (db w))
    as Hfind.
  destruct (Sql.select_where Instruments "normalized_name" (VStr name) (db w))
    as [|e rs]; [discriminate|]. simpl in Hs, Hfind.
  destruct (Py.truthy_dict _); [|discriminate].
  unfold ret in Hs. injection Hs as <- <-.
  exists e. split; [done|].
  apply import_rois_loop_inv in H. destruct H as (ds & -> & HF). simpl.
  eapply Forall2_impl; [exact HF|]. intros r d (iid & Hi & Hd).
  rewrite project_lookup_id in Hi. by injection Hi as <-.
Qed.

Lemma import_rois_attaches_to_named_instrument_witness :
  let w := Fixture.world_of Fixture.shared in
  let rows : list row := [ {[ "roi_name" := VStr "ROI_01" ]} ] in
  ∃ imported w',
    ImportRois.import_rois rows "PHE01" true w = (Ok imported, w')
    ∧ Forall (λ d, ("instrument_id", VNum 5) ∈ d ∧ ("color", VStr "#FF0000") ∈ d)
        imported.
Proof.
  intros w rows.
  destruct (ImportRois.import_rois rows "PHE01" true w) as [o w'] eqn:E.
  assert (∃ imported, o = Ok imported) as [imported ->].
  { assert (match (ImportRois.import_rois rows "PHE01" true w).1 with
            | Ok _ => true | _ => false end = true) as Hok
      by (vm_compute; reflexivity).
    rewrite E in Hok. simpl in Hok. destruct o; [by eexists | discriminate]. }
  exists imported, w'. split; [done|].
  destruct (import_rois_attaches_to_named_instrument rows "PHE01" true w w'
              imported E) as (e & Hfind & HF).
  assert (e = Fixture.instrument 5 3 "PHE01" "Cam ANS" "Active") as ->.
  { assert (List.find (Sql.matches "normalized_name" (VStr "PHE01"))
              (instruments (db w))
            = Some (Fixture.instrument 5 3 "PHE01" "Cam ANS" "Active")) as Hf
      by reflexivity.
    rewrite Hf in Hfind. by injection Hfind as <-. }
  inversion HF as [|r d rs ds (Hi & _ & _ & _ & Hc) HF']; subst.
  inversion HF'; subst. constructor; [|constructor]. by split.
Defined.

(** X13. When no instrument carries the given name, [import_rois] raises
    "Instrument ... not found" before anything else happens: whatever the
    rows and the mode, the world is left as it was. *)
Theorem import_rois_instrument_not_found_is_fatal
    (rows : list row) (name : string) (dry_run : bool) (w : world) :
  D1.query_one Instruments "normalized_name" (VStr name) w = (Ok None, w) →
  ImportRois.import_rois rows name dry_run w
  = (Raise (ImportRois.not_found name), w).
Proof.
  rewrite query_one_eq. intros H.
  unfold ImportRois.import_rois, ImportRois.lookup_instrument_id, bind, D1.query.
  destruct (Sql.select_where Instruments "normalized_name" (VStr name) (db w));
    [done | by inversion H].
Qed.

Lemma import_rois_instrument_not_found_is_fatal_witness :
  let w := Fixture.world_of Fixture.svb in
  ImportRois.import_rois [ {[ "roi_name" := VStr "ROI_01" ]} ] "NO_SUCH_CAM"
    false w
  = (Raise (ValueError "Instrument NO_SUCH_CAM not found"), w).
Proof.
  intros w.
  apply (import_rois_instrument_not_found_is_fatal _ "NO_SUCH_CAM" false w).
  reflexivity.
Defined.

(** ** [d1_client.py]: placeholders and parameters *)

(** The number of [?] in a statement. *)
Fixpoint placeholders (s : string) : nat :=
  match s with
  | EmptyString => 0
  | String c s' =>
      (if bool_decide (c = Ascii.ascii_of_nat 63) then 1 else 0)
      + placeholders s'
  end.

Lemma placeholders_app (a b : string) :
  placeholders (a +:+ b) = (placeholders a + placeholders b)%nat.
Proof. induction a as [|c a IH]; simpl; [done|]. rewrite IH. lia. Qed.

Lemma placeholders_concat (sep : string) (l : list string) :
  placeholders sep = 0%nat →
  placeholders (String.concat sep l) = sum_list (map placeholders l).
Proof.
  intros Hsep. induction l as [|x l IH]; [done|].
  destruct l as [|y l].
  - simpl. lia.
  - change (String.concat sep (x :: y :: l))
      with (x +:+ sep +:+ String.concat sep (y :: l)).
    rewrite !placeholders_app, IH, Hsep. simpl. lia.
Qed.

Lemma table_name_clean (t : table) : placeholders (table_name t) = 0%nat.
Proof. by destruct t. Qed.

Lemma set_clause_placeholders (data : list (string * value)) :
  Forall (λ kv, placeholders kv.1 = 0%nat) data →
  placeholders (D1.set_clause data) = length data.
Proof.
  intros H. unfold D1.set_clause. rewrite placeholders_concat by done.
  induction H as [|[k v] data Hk _ IH]; [done|].
  simpl in *. rewrite placeholders_app, Hk, IH. simpl. lia.
Qed.

Lemma column_list_placeholders (data : list (string * value)) :
  Forall (λ kv, placeholders kv.1 = 0%nat) data →
  placeholders (String.concat ", " (map fst data)) = 0%nat.
Proof.
  intros H. rewrite placeholders_concat by done.
  induction H as [|[k v] data Hk _ IH]; [done|]. simpl in *. lia.
Qed.

Lemma marks_placeholders {A} (data : list A) :
  placeholders (String.concat ", " (map (λ _, "?") data)) = length data.
Proof.
  rewrite placeholders_concat by done.
  induction data as [|x data IH]; [done|]. simpl in *. lia.
Qed.

Lemma update_binds (t : table) (data : list (string * value)) (col : string)
    (v : value) (w : world) :
  Forall (λ kv, placeholders kv.1 = 0%nat) data →
  placeholders col = 0%nat →
  ∃ st, writes (D1.update t data col v w).2 = writes w ++ [st]
        ∧ st_kind st = KUpdate
        ∧ placeholders (st_sql st) = length (st_params st).
Proof.
  intros Hdata Hcol.
  unfold D1.update, bind, D1.execute_write, ret. simpl.
  eexists. split; [reflexivity|]. split; [done|]. simpl.
  unfold D1.update_sql. rewrite !placeholders_app, table_name_clean,
    set_clause_placeholders, Hcol by done.
  rewrite length_app, length_map. simpl. lia.
Qed.

Lemma insert_binds (t : table) (data : list (string * value)) (w : world) :
  Forall (λ kv, placeholders kv.1 = 0%nat) data →
  ∃ st, writes (D1.insert t data w).2 = writes w ++ [st]
        ∧ st_kind st = KInsert
        ∧ placeholders (st_sql st) = length (st_params st).
Proof.
  intros Hdata.
  unfold D1.insert, bind, D1.execute_write, ret. simpl.
  eexists. split; [reflexivity|]. split; [done|]. simpl.
  unfold D1.insert_sql. rewrite !placeholders_app, table_name_clean,
    column_list_placeholders, marks_placeholders by done.
  rewrite length_map. simpl. lia.
Qed.

(** X14. The statements the gateway builds bind every parameter: when no
    column name contains a question mark, the text [update] sends has
    exactly as many [?] as the parameters sent with it (the values, then
    the parameter of the WHERE clause), and so has the text [insert] sends. *)
Theorem gateway_statements_bind_their_parameters
    (t : table) (data : list (string * value)) (col : string) (v : value)
    (w : world) :
  Forall (λ kv, placeholders kv.1 = 0%nat) data →
  placeholders col = 0%nat →
  (∃ st, writes (D1.update t data col v w).2 = writes w ++ [st]
         ∧ st_kind st = KUpdate
         ∧ placeholders (st_sql st) = length (st_params st))
  ∧ (∃ st, writes (D1.insert t data w).2 = writes w ++ [st]
           ∧ st_kind st = KInsert
           ∧ placeholders (st_sql st) = length (st_params st)).
Proof.
  intros Hdata Hcol. split; [by apply update_binds | by apply insert_binds].
Qed.

Lemma gateway_statements_bind_their_parameters_witness :
  ∃ st,
    writes (D1.update Platforms
              [("status", VStr "Inactive"); ("updated_at", VStr "2024-06-01")]
              "id" (VNum 2) (Fixture.world_of Fixture.svb)).2 = [st]
    ∧ placeholders (st_sql st) = 3%nat.
Proof.
  destruct (gateway_statements_bind_their_parameters Platforms
              [("status", VStr "Inactive"); ("updated_at", VStr "2024-06-01")]
              "id" (VNum 2) (Fixture.world_of Fixture.svb))
    as [(st & Hw & _ & Hp) _].
  - by repeat constructor.
  - reflexivity.
  - exists st. split; [exact Hw|]. rewrite Hp.
    simpl in Hw. injection Hw as <-. reflexivity.
Defined.

Lemma allow_lists_clean (fields : list string) :
  fields ∈ [Sync.station_fields; Sync.platform_fields; Sync.instrument_fields] →
  Forall (λ f, placeholders f = 0%nat) fields.
Proof.
  intros H. repeat (apply elem_of_cons in H; destruct H as [-> | H]);
    [| | | by apply not_elem_of_nil in H]; by repeat constructor.
Qed.

Lemma bound_update (t : table) (fields : list string) :
  fields ∈ [Sync.station_fields; Sync.platform_fields; Sync.instrument_fields] →
  level_ok (sends (λ s, placeholders (st_sql s) = length (st_params s))) t fields.
Proof.
  intros Hf local e now v w.
  destruct (update_binds t
              (Sync.collect_updates fields local e ++ [("updated_at", now)])
              "id" v w) as (st & Hw & _ & Hp).
  - apply Forall_app. split; [|by repeat constructor].
    apply Forall_forall. intros [f u] Hin. simpl.
    apply collect_updates_spec in Hin. destruct Hin as (Hin & _).
    pose proof (allow_lists_clean fields Hf) as Hclean.
    rewrite Forall_forall in Hclean. by apply Hclean.
  - reflexivity.
  - exists [st]. split; [done|]. by constructor.
Qed.

(** X15. Every statement a push sends binds all its parameters: its text
    has as many [?] as parameters go with it, whatever the candidate. *)
Theorem push_statements_bind_their_parameters
    (acr : string) (cand : station_doc) (w : world) :
  sends (λ s, placeholders (st_sql s) = length (st_params s)) w
    (Sync.push_station acr cand false w).2.
Proof.
  apply preserves_push_station.
  - apply sends_refl.
  - apply sends_trans.
  - apply sends_utcnow.
  - discriminate.
  - intros _. apply bound_update. set_solver.
  - intros _. apply bound_update. set_solver.
  - intros _. apply bound_update. set_solver.
Qed.

(** ** [export_db_to_yaml.py]: no empty block *)

Lemma emit_sub_brand (name : string) (keys : list string) (d : row) :
  Py.truthy (Py.get d "brand") = true →
  YamlExport.emit_sub name ("brand" :: keys) (Some d)
  = ("          " +:+ name +:+ ":")
      :: ("            brand: " +:+ YamlExport.dquote
            +:+ Py.str (Py.get d "brand") +:+ YamlExport.dquote)
      :: flat_map (YamlExport.emit_field d) keys.
Proof.
  intros Hb. unfold YamlExport.emit_sub.
  assert (d ≠ ∅) as Hne.
  { intros ->. unfold Py.get in Hb. by rewrite lookup_empty in Hb. }
  rewrite (truthy_dict_true _ Hne). simpl.
  unfold YamlExport.emit_field at 1. by rewrite Hb.
Qed.

(** X16. The YAML export never prints an empty block: for an instrument
    built from a result row, the [camera:] header, when printed, is
    followed by the brand line, and so is the [sensor:] header. *)
Theorem yaml_blocks_start_with_brand
    (r : row) (w w' : world) (e : YamlExport.instrument_entry) :
  YamlExport.build_instrument r w = (Ok e, w') →
  (YamlExport.emit_camera e = []
   ∨ ∃ rest,
       YamlExport.emit_camera e
       = "          camera:"
           :: ("            brand: " +:+ YamlExport.dquote
                 +:+ Py.str (Py.get r "camera_brand") +:+ YamlExport.dquote)
           :: rest)
  ∧ (YamlExport.emit_sensor e = []
     ∨ ∃ rest,
         YamlExport.emit_sensor e
         = "          sensor:"
             :: ("            brand: " +:+ YamlExport.dquote
                   +:+ Py.str (Py.get r "sensor_brand") +:+ YamlExport.dquote)
             :: rest).
Proof.
  intros H. apply build_instrument_inv in H. destruct H as [Hc Hs].
  apply camera_of_inv in Hc. destruct Hc as [_ Hc].
  apply sensor_of_inv in Hs. destruct Hs as [_ Hs].
  unfold YamlExport.emit_camera, YamlExport.emit_sensor. split.
  - destruct Hc as [[Hc ->] | [_ ->]]; [|by left]. right.
    eexists. rewrite emit_sub_brand.
    + unfold Py.get at 1. by rewrite lookup_insert_eq.
    + unfold Py.get. by rewrite lookup_insert_eq.
  - destruct Hs as [[Hs ->] | [_ ->]]; [|by left]. right.
    eexists. rewrite emit_sub_brand.
    + unfold Py.get at 1. by rewrite lookup_insert_eq.
    + unfold Py.get. by rewrite lookup_insert_eq.
Qed.

Lemma yaml_blocks_start_with_brand_witness :
  let r : row :=
    {[ "instr_display" := VStr "Cam A"; "instrument_type" := VStr "phenocam";
       "instrument_number" := VStr "PHE01"; "status" := VStr "Active";
       "legacy_acronym" := VNull; "instrument_height_m" := VNull;
       "deployment_date" := VNull; "camera_brand" := VStr "Mobotix";
       "camera_model" := VNull; "camera_serial_number" := VNull;
       "sensor_brand" := VNull; "sensor_model" := VNull;
       "installation_notes" := VNull ]} in
  let w := Fixture.world_of Fixture.svb in
  ∃ e, (YamlExport.build_instrument r w).1 = Ok e
       ∧ (YamlExport.emit_camera e = []
          ∨ ∃ rest,
              YamlExport.emit_camera e
              = "          camera:"
                  :: ("            brand: " +:+ YamlExport.dquote
                        +:+ "Mobotix" +:+ YamlExport.dquote)
                  :: rest).
Proof.
  intros r w.
  destruct (YamlExport.build_instrument r w) as [o w'] eqn:E.
  assert (∃ e, o = Ok e) as [e ->].
  { assert (match (YamlExport.build_instrument r w).1 with
            | Ok _ => true | _ => false end = true) as Hok
      by (vm_compute; reflexivity).
    rewrite E in Hok. simpl in Hok. destruct o; [by eexists | discriminate]. }
  exists e. split; [done|].
  by destruct (yaml_blocks_start_with_brand r w w' e E) as [Hc _].
Defined.

(** ** Rows with a primary key, and lookups by name under updates *)


















(** ** A push, entity by entity *)






(** No name of [keys] equals [n]. *)
Definition fresh (keys : list value) (n : value) : Prop :=
  Forall (λ k, Py.eq k n = false) keys.


















(** ** Entities at rest *)







(** ** The dry run as a preview of the push *)












(** ** A push followed by a diff *)











